(** * zotero-cli: configuration resolution and the paginated API client

    A shallow embedding of [src/bin/zotero-cli.ts].  The JavaScript values the
    program handles are an inductive type, the built-ins it calls
    ([parseInt], [String], [JSON.stringify], property access, [encodeURI])
    are functions written after ECMAScript, and the methods of the [Zotero]
    class are functions over an explicit trace of the effects they perform
    (HTTP requests, sleeps, console output, file writes). *)

From Stdlib Require Import ZArith List String Ascii Bool Lia DecimalString.
Import ListNotations.

Set Warnings "-register-all".

Local Open Scope string_scope.
Local Open Scope list_scope.

Infix "+++" := String.append (at level 60, right associativity).

(** ** JavaScript values and built-ins *)

Module JS.

(** A number is an integer or an infinity; [NaN] is the [None] of an
    [option number] where the program can meet it, and fractions are not
    modelled.  The numbers the program computes are doubles: [to_double]
    below rounds an integer to the nearest one. *)
Inductive number : Type :=
| Finite (n : Z)
| Infinity (negative : bool).

Coercion Finite : Z >-> number.

Bind Scope Z_scope with number.

(** A string is a sequence of code units; the model covers code units below
    256.  The flag of [JObj] tells whether the object inherits from
    [Object.prototype] (object literals do, tables made by
    [Object.create(null)] do not).  [JErr] is an instance of [Error];
    [JBuiltin] is a member inherited from [Object.prototype]: a function, or
    under [__proto__] the prototype itself. *)
Inductive jsval : Type :=
| JUndefined
| JNull
| JBool (b : bool)
| JNum (n : number)
| JStr (s : string)
| JArr (elems : list jsval)
| JObj (proto : bool) (props : list (string * jsval))
| JErr (name message stack : string)
| JBuiltin (name : string).

Definition props := list (string * jsval).

(** [typeof v === 'undefined'] *)
Definition is_undefined (v : jsval) : bool :=
  match v with JUndefined => true | _ => false end.

(** [typeof v] *)
Definition js_typeof (v : jsval) : string :=
  match v with
  | JUndefined => "undefined"
  | JBool _ => "boolean"
  | JNum _ => "number"
  | JStr _ => "string"
  | JNull | JArr _ | JObj _ _ | JErr _ _ _ => "object"
  | JBuiltin name => if name =? "__proto__" then "object" else "function"
  end.

(** [typeof v === 'string'] *)
Definition is_string (v : jsval) : bool :=
  match v with JStr _ => true | _ => false end.

(** [v === null] *)
Definition is_null (v : jsval) : bool :=
  match v with JNull => true | _ => false end.

(** ToBoolean *)
Definition truthy (v : jsval) : bool :=
  match v with
  | JUndefined | JNull => false
  | JBool b => b
  | JNum (Finite n) => negb (n =? 0)%Z
  | JNum (Infinity _) => true
  | JStr s => negb (s =? "")
  | JArr _ | JObj _ _ | JErr _ _ _ | JBuiltin _ => true
  end.

(** [a || b] *)
Definition js_or (a b : jsval) : jsval := if truthy a then a else b.

(** The decimal numeral of an integer, which is what JavaScript prints for
    it below 10^21. *)
Definition string_of_Z (n : Z) : string := NilZero.string_of_int (Z.to_int n).

(** Number::toString, for an integer below 10^21 in magnitude and for the
    infinities. *)
Definition string_of_number (n : number) : string :=
  match n with
  | Finite n => string_of_Z n
  | Infinity false => "Infinity"
  | Infinity true => "-Infinity"
  end.

Definition string_of_bool (b : bool) : string := if b then "true" else "false".

Fixpoint join (sep : string) (l : list string) : string :=
  match l with
  | [] => ""
  | [x] => x
  | x :: r => x +++ sep +++ join sep r
  end.

(** ToString, as a template literal applies it. *)
Fixpoint ToString (v : jsval) : string :=
  match v with
  | JUndefined => "undefined"
  | JNull => "null"
  | JBool b => string_of_bool b
  | JNum n => string_of_number n
  | JStr s => s
  | JArr l =>
      join ","
        (map (fun x => match x with
                       | JUndefined | JNull => ""
                       | _ => ToString x
                       end) l)
  | JObj _ _ => "[object Object]"
  | JErr name message _ =>
      if message =? "" then name
      else if name =? "" then message
      else name +++ ": " +++ message
  | JBuiltin name =>
      if name =? "__proto__" then "[object Object]"
      else "function " +++ name +++ "() { [native code] }"
  end.

(** [l.join(sep)]: [undefined] and [null] are joined as empty strings. *)
Definition join_values (sep : string) (l : list jsval) : string :=
  join sep (map (fun x => match x with
                          | JUndefined | JNull => ""
                          | _ => ToString x
                          end) l).

(** The members every ordinary object inherits from [Object.prototype]. *)
Definition object_prototype_keys : list string :=
  [ "constructor"; "toString"; "toLocaleString"; "valueOf"; "hasOwnProperty";
    "isPrototypeOf"; "propertyIsEnumerable"; "__proto__";
    "__defineGetter__"; "__defineSetter__"; "__lookupGetter__";
    "__lookupSetter__" ].

Fixpoint mem_string (k : string) (l : list string) : bool :=
  match l with
  | [] => false
  | x :: r => (k =? x) || mem_string k r
  end.

Fixpoint assoc (k : string) (l : props) : option jsval :=
  match l with
  | [] => None
  | (k', v) :: r => if k =? k' then Some v else assoc k r
  end.

(** The integer a string of decimal digits denotes, after [acc]. *)
Fixpoint index_value (s : string) (acc : Z) : option Z :=
  match s with
  | String c r =>
      let n := Z.of_nat (nat_of_ascii c) in
      if ((48 <=? n) && (n <=? 57))%Z then index_value r (10 * acc + (n - 48))%Z
      else None
  | EmptyString => Some acc
  end.

(** The array index a property name is, if it is one: the canonical numeral
    of an integer from 0 to 2^32 - 2. *)
Definition array_index (k : string) : option Z :=
  match k with
  | EmptyString => None
  | String c r =>
      if (c =? "0")%char && negb (r =? "") then None
      else match index_value k 0 with
           | Some n => if (n <? 2 ^ 32 - 1)%Z then Some n else None
           | None => None
           end
  end.

(** [o[k]] on a value that is not [undefined] or [null]: own property first,
    then [Object.prototype].  An array and a string have their elements
    under the array indices, and their [length]; the methods of the
    prototypes of arrays, strings and numbers are not members of the
    model. *)
Definition get_prop (o : jsval) (k : string) : jsval :=
  match o with
  | JObj proto l =>
      match assoc k l with
      | Some v => v
      | None =>
          if proto && mem_string k object_prototype_keys
          then JBuiltin k else JUndefined
      end
  | JErr name message stack =>
      if k =? "message" then JStr message
      else if k =? "name" then JStr name
      else if k =? "stack" then JStr stack
      else if mem_string k object_prototype_keys then JBuiltin k
      else JUndefined
  | JUndefined | JNull => JUndefined
  | JArr l =>
      match array_index k with
      | Some i => nth (Z.to_nat i) l JUndefined
      | None =>
          if k =? "length" then JNum (Z.of_nat (List.length l))
          else if mem_string k object_prototype_keys then JBuiltin k
          else JUndefined
      end
  | JStr s =>
      match array_index k with
      | Some i =>
          match String.get (Z.to_nat i) s with
          | Some c => JStr (String c "")
          | None => JUndefined
          end
      | None =>
          if k =? "length" then JNum (Z.of_nat (String.length s))
          else if mem_string k object_prototype_keys then JBuiltin k
          else JUndefined
      end
  | JBool _ | JNum _ | JBuiltin _ =>
      if mem_string k object_prototype_keys then JBuiltin k else JUndefined
  end.

(** *** Object.keys *)

(** [k], of index [i], in its place among the names [acc] sorted by
    index. *)
Fixpoint insert_index (i : Z) (k : string) (acc : list (Z * string))
  : list (Z * string) :=
  match acc with
  | [] => [(i, k)]
  | (j, k') :: r =>
      if (i <? j)%Z then (i, k) :: acc else (j, k') :: insert_index i k r
  end.

Definition index_keys (names : list string) : list (Z * string) :=
  fold_left
    (fun acc k => match array_index k with
                  | Some i => insert_index i k acc
                  | None => acc
                  end)
    names [].

Definition is_index (k : string) : bool :=
  match array_index k with Some _ => true | None => false end.

(** The own property names of an object in the order of
    OrdinaryOwnPropertyKeys: the array indices in ascending order, then the
    other names in the order of their creation. *)
Definition own_keys (names : list string) : list string :=
  map snd (index_keys names) ++ filter (fun k => negb (is_index k)) names.

Definition indices (n : nat) : list string :=
  map (fun i => string_of_Z (Z.of_nat i)) (seq 0 n).

(** [Object.keys(o)] on a value that is not [undefined] or [null], on which
    it throws.  The members of an [Error] are not enumerable. *)
Definition keys (o : jsval) : list string :=
  match o with
  | JObj _ l => own_keys (map fst l)
  | JArr l => indices (List.length l)
  | JStr s => indices (String.length s)
  | _ => []
  end.

Fixpoint remove_key (k : string) (l : props) : props :=
  match l with
  | [] => []
  | (k', v) :: r => if k =? k' then remove_key k r else (k', v) :: remove_key k r
  end.

Fixpoint put_key (k : string) (v : jsval) (l : props) : props :=
  match l with
  | [] => [(k, v)]
  | (k', v') :: r => if k =? k' then (k, v) :: r else (k', v') :: put_key k v r
  end.

(** [delete o[k]] *)
Definition delete_prop (o : jsval) (k : string) : jsval :=
  match o with
  | JObj proto l => JObj proto (remove_key k l)
  | _ => o
  end.

(** [o[k] = v] *)
Definition set_prop (o : jsval) (k : string) (v : jsval) : jsval :=
  match o with
  | JObj proto l => JObj proto (put_key k v l)
  | _ => o
  end.

(** *** parseInt *)

Definition code (c : ascii) : Z := Z.of_nat (nat_of_ascii c).

(** StrWhiteSpaceChar, among the code units below 256. *)
Definition is_white (c : ascii) : bool :=
  let n := code c in
  ((9 <=? n) && (n <=? 13) || (n =? 32) || (n =? 160))%Z.

Fixpoint trim_start (s : string) : string :=
  match s with
  | String c r => if is_white c then trim_start r else s
  | EmptyString => s
  end.

Definition digit_value (c : ascii) : option Z :=
  let n := code c in
  if ((48 <=? n) && (n <=? 57))%Z then Some (n - 48)%Z
  else if ((97 <=? n) && (n <=? 122))%Z then Some (n - 87)%Z
  else if ((65 <=? n) && (n <=? 90))%Z then Some (n - 55)%Z
  else None.

(** The value of the longest prefix of [s] made of digits of [radix];
    [acc] is the value read so far, [None] while no digit was read. *)
Fixpoint read_digits (radix : Z) (s : string) (acc : option Z) : option Z :=
  match s with
  | String c r =>
      match digit_value c with
      | Some d =>
          if (d <? radix)%Z
          then read_digits radix r
                 (Some (radix * match acc with Some a => a | None => 0 end + d)%Z)
          else acc
      | None => acc
      end
  | EmptyString => acc
  end.

(** The sign, and the string after it. *)
Definition strip_sign (s : string) : Z * string :=
  match s with
  | String c r =>
      if (c =? "-")%char then ((-1)%Z, r)
      else if (c =? "+")%char then (1%Z, r)
      else (1%Z, s)
  | EmptyString => (1%Z, s)
  end.

(** The radix, 16 after [0x] or [0X] and 10 otherwise, and the string after
    the prefix. *)
Definition strip_radix (s : string) : Z * string :=
  match s with
  | String c (String x r) =>
      if (c =? "0")%char && ((x =? "x")%char || (x =? "X")%char)
      then (16%Z, r) else (10%Z, s)
  | _ => (10%Z, s)
  end.

(** The double nearest to an integer, ties to the even significand: the
    integers up to 2^53 in magnitude are doubles; beyond, 53 bits are kept,
    and what rounds to 2^1024 or more is an infinity. *)
Definition to_double (n : Z) : number :=
  let a := Z.abs n in
  if (a <=? 2 ^ 53)%Z then Finite n
  else
    let e := (Z.log2 a - 52)%Z in
    let q := Z.shiftr a e in
    let r := (a - Z.shiftl q e)%Z in
    let half := Z.shiftl 1 (e - 1) in
    let q := if (half <? r)%Z || ((r =? half)%Z && Z.odd q) then (q + 1)%Z else q in
    let m := Z.shiftl q e in
    if (2 ^ 1024 <=? m)%Z then Infinity (n <? 0)%Z
    else Finite (Z.sgn n * m)%Z.

(** [a * b] on numbers, [None] being [NaN]. *)
Definition js_mul (a b : option number) : option number :=
  match a, b with
  | Some (Finite x), Some (Finite y) => Some (to_double (x * y))
  | Some (Infinity s), Some (Finite y) | Some (Finite y), Some (Infinity s) =>
      if (y =? 0)%Z then None else Some (Infinity (xorb s (y <? 0)%Z))
  | Some (Infinity s), Some (Infinity t) => Some (Infinity (xorb s t))
  | _, _ => None
  end.

(** [parseInt(s)] with no radix argument; [None] is [NaN].  The digits are
    read as the integer they denote, and the result is the double nearest to
    it, as V8 computes it (the language lets an engine read the decimal
    digits after the twentieth as zeros). *)
Definition parseInt_string (s : string) : option number :=
  let (sign, s) := strip_sign (trim_start s) in
  let (radix, s) := strip_radix s in
  option_map (fun m => to_double (sign * m)) (read_digits radix s None).

Definition parseInt (v : jsval) : option number := parseInt_string (ToString v).

(** *** toUpperCase and replace *)

Definition upper_char (c : ascii) : ascii :=
  let n := nat_of_ascii c in
  if (97 <=? n)%nat && (n <=? 122)%nat then ascii_of_nat (n - 32) else c.

(** [s.toUpperCase()], on ASCII. *)
Fixpoint toUpperCase (s : string) : string :=
  match s with
  | String c r => String (upper_char c) (toUpperCase r)
  | EmptyString => EmptyString
  end.

(** [s.replace(/a/g, b)] for a one-character pattern. *)
Fixpoint replace_char (a b : ascii) (s : string) : string :=
  match s with
  | String c r => String (if Ascii.eqb c a then b else c) (replace_char a b r)
  | EmptyString => EmptyString
  end.

(** *** JSON.stringify *)

Definition hex_digit (upper : bool) (n : nat) : ascii :=
  if (n <? 10)%nat then ascii_of_nat (48 + n)
  else ascii_of_nat ((if upper then 55 else 87) + n).

Definition hex2 (upper : bool) (n : nat) : string :=
  String (hex_digit upper (n / 16)) (String (hex_digit upper (n mod 16)) "").

Definition backslash : string := String (ascii_of_nat 92) "".
Definition dquote : string := String (ascii_of_nat 34) "".
Definition newline : string := String (ascii_of_nat 10) "".

Definition quote_char (c : ascii) : string :=
  let n := nat_of_ascii c in
  if (n =? 34)%nat then backslash +++ dquote
  else if (n =? 92)%nat then backslash +++ backslash
  else if (n =? 8)%nat then backslash +++ "b"
  else if (n =? 12)%nat then backslash +++ "f"
  else if (n =? 10)%nat then backslash +++ "n"
  else if (n =? 13)%nat then backslash +++ "r"
  else if (n =? 9)%nat then backslash +++ "t"
  else if (n <? 32)%nat then backslash +++ "u00" +++ hex2 false n
  else String c "".

Fixpoint quote_body (s : string) : string :=
  match s with
  | String c r => quote_char c +++ quote_body r
  | EmptyString => ""
  end.

(** QuoteJSONString *)
Definition quote (s : string) : string := dquote +++ quote_body s +++ dquote.

Fixpoint spaces (n : nat) : string :=
  match n with
  | O => ""
  | S m => String " " (spaces m)
  end.

Fixpoint take (n : nat) (s : string) : string :=
  match n, s with
  | S m, String c r => String c (take m r)
  | _, _ => ""
  end.

(** The gap [JSON.stringify] derives from its third argument. *)
Definition gap_of (space : jsval) : string :=
  match space with
  | JNum (Finite n) => spaces (Z.to_nat (Z.min 10 n))
  | JNum (Infinity negative) => if negative then "" else spaces 10
  | JStr s => take 10 s
  | _ => ""
  end.

Definition wrap (open close gap indent : string) (partial : list string) : string :=
  match partial with
  | [] => open +++ close
  | _ =>
      if gap =? "" then open +++ join "," partial +++ close
      else
        open +++ newline +++ indent +++ gap
        +++ join ("," +++ newline +++ indent +++ gap) partial
        +++ newline +++ indent +++ close
  end.

(** SerializeJSONProperty; [None] is [undefined].  The own properties of an
    [Error] ([message], [stack]) are not enumerable. *)
Fixpoint serialize (gap indent : string) (v : jsval) : option string :=
  match v with
  | JUndefined => None
  | JBuiltin name => if name =? "__proto__" then Some "{}" else None
  | JNull => Some "null"
  | JBool b => Some (string_of_bool b)
  | JNum (Finite n) => Some (string_of_Z n)
  | JNum (Infinity _) => Some "null"
  | JStr s => Some (quote s)
  | JArr l =>
      Some (wrap "[" "]" gap indent
              (map (fun x => match serialize gap (indent +++ gap) x with
                             | Some t => t
                             | None => "null"
                             end) l))
  | JObj _ l =>
      Some (wrap "{" "}" gap indent
              (flat_map (fun kx => match serialize gap (indent +++ gap) (snd kx) with
                                   | Some t =>
                                       [quote (fst kx) +++ ":"
                                        +++ (if gap =? "" then "" else " ") +++ t]
                                   | None => []
                                   end) l))
  | JErr _ _ _ => Some "{}"
  end.

(** [JSON.stringify(v, null, space)] *)
Definition JSON_stringify (v space : jsval) : option string :=
  serialize (gap_of space) "" v.

(** *** encodeURI *)

Definition uri_unescaped (c : ascii) : bool :=
  let n := nat_of_ascii c in
  ((97 <=? n) && (n <=? 122) || (65 <=? n) && (n <=? 90)
   || (48 <=? n) && (n <=? 57))%nat
  || mem_string (String c "")
       [ "-"; "_"; "."; "!"; "~"; "*"; "'"; "("; ")";
         ";"; "/"; "?"; ":"; "@"; "&"; "="; "+"; "$"; ","; "#" ].

Definition percent (n : nat) : string := "%" +++ hex2 true n.

(** The UTF-8 octets of a code unit below 256, each escaped. *)
Definition encode_char (c : ascii) : string :=
  let n := nat_of_ascii c in
  if uri_unescaped c then String c ""
  else if (n <? 128)%nat then percent n
  else percent (192 + n / 64) +++ percent (128 + n mod 64).

Fixpoint encode_string (s : string) : string :=
  match s with
  | String c r => encode_char c +++ encode_string r
  | EmptyString => ""
  end.

Definition encodeURI (v : jsval) : string := encode_string (ToString v).

(** *** Array.prototype.includes and concat *)

(** SameValueZero; two objects are the same only by reference, which two
    values of the model never share. *)
Definition same_value_zero (a b : jsval) : bool :=
  match a, b with
  | JUndefined, JUndefined => true
  | JNull, JNull => true
  | JBool x, JBool y => Bool.eqb x y
  | JNum (Finite x), JNum (Finite y) => (x =? y)%Z
  | JNum (Infinity x), JNum (Infinity y) => Bool.eqb x y
  | JStr x, JStr y => x =? y
  | JBuiltin x, JBuiltin y => x =? y
  | _, _ => false
  end.

Definition includes (l : list jsval) (v : jsval) : bool :=
  existsb (same_value_zero v) l.

(** [a.concat(b)]; [None] where [a] has no [concat] method (a [TypeError]). *)
Definition concat (a b : jsval) : option jsval :=
  match a with
  | JArr l => Some (JArr (l ++ match b with JArr m => m | _ => [b] end))
  | JStr s => Some (JStr (s +++ ToString b))
  | _ => None
  end.

End JS.

Import JS.

(** ** The option descriptors *)

(** The [type] of an argument: one of the converters of [arg], or none. *)
Inductive argtype : Type :=
| arg_integer
| arg_file
| arg_path
| arg_json
| arg_none.

Definition argtype_eqb (a b : argtype) : bool :=
  match a, b with
  | arg_integer, arg_integer | arg_file, arg_file | arg_path, arg_path
  | arg_json, arg_json | arg_none, arg_none => true
  | _, _ => false
  end.

(** An element of [options]: the members the resolution loop reads
    ([dest], [type], [choices], [action]) and those the argument parser
    reads besides ([required], [constant], [defaultValue]).  [dest],
    [choices] and [action] are [None] where the element has no such member;
    [constant] is what an action that takes no argument stores, and
    [defaultValue] is [None] where the parser sets no member for an option
    that is not given. *)
Record Action : Type := {
  dest : option string;
  type : argtype;
  choices : option (list jsval);
  action : option string;
  required : bool;
  constant : option jsval;
  defaultValue : option jsval
}.

(** What [addArgument] makes of an option that takes a value, of a flag
    ([action: 'storeTrue']) and of [--help].  The parser keeps the name of
    the action to itself: the objects it makes have no member [action], and
    a flag that is not given is [false]. *)
Definition store (d : string) (t : argtype) : Action :=
  {| dest := Some d; type := t; choices := None; action := None;
     required := false; constant := None; defaultValue := Some JNull |}.

Definition storeTrue (d : string) : Action :=
  {| dest := Some d; type := arg_none; choices := None; action := None;
     required := false; constant := Some (JBool true);
     defaultValue := Some (JBool false) |}.

Definition help_action : Action :=
  {| dest := Some "help"; type := arg_none; choices := None; action := None;
     required := false; constant := Some (JBool true); defaultValue := None |}.

(** The global parameters, [run] lines 61-67, after the help action the
    parser adds, which the loop skips. *)
Definition global_actions : list Action :=
  [ help_action;
    store "api_key" arg_none;
    store "config" arg_file;
    store "user_id" arg_integer;
    store "group_id" arg_integer;
    store "indent" arg_integer;
    store "out" arg_none;
    storeTrue "verbose" ].

(** ** What the program runs on *)

(** The options [request] is called with; a member the call leaves out is
    [None] or [undefined], and [false] for the two flags. *)
Record http_request : Type := {
  method : option string;
  uri : string;
  req_headers : props;
  body : jsval;
  encoding : jsval;
  json : bool;
  resolveWithFullResponse : bool
}.

(** How a promise settles. *)
Inductive reply : Type :=
| Resolve (v : jsval)
| Reject (e : jsval).

(** How the process ends other than by running to completion:
    [process.exit(n)], [this.parser.error(message)] called by the program, or
    an error [parseArgs] raises for the argument [dest].  The last three end
    the process through the error routine of the parser, which writes the
    usage and the message on the error stream and exits with the status of
    the library. *)
Inductive exit_status : Type :=
| ExitCode (n : Z)
| ParserError (message : string)
| ArgumentRequired (dest : string)
| ArgumentInvalid (dest message : string).

(** The command line, as the options it gives in the order it gives them,
    each under its [dest] with the text of its argument (a flag has none,
    and what stands for it is not read). *)
Definition command_line : Type := list (string * string).

(** An error the engine or a library raises at a place of the program; its
    message and its stack are the engine's, not the program's. *)
Inductive fault : Type :=
| ReadOf (k : string) (o : jsval)
| NotAFunction (name : string)
| NotIterable (v : jsval)
| NotAPath (v : jsval)
| BadPattern (p : string).

(** The file system, the engine, the libraries and the remote API.
    [respond n r] is the answer to the request [r] when [n] requests were
    issued before it.  [LinkHeader_next h] lists the [uri] members of
    [LinkHeader.parse(h).rel('next')], an absent or empty [uri] as the empty
    string.  [JSON_parse s] is [JSON.parse(s)], [inl] with the message of the
    [SyntaxError] it throws.  [RegExp_replace p s r] is
    [s.replace(new RegExp(p, 'g'), r)], [None] where the pattern does not
    compile.  [writeFileSync f data] is [None] when the file is written and
    the error thrown otherwise.  [parseArgs actions argv] is what the
    argument parser, made of [actions], returns for the command line, or
    the error it ends the process with, and [parser_exit_status] the status
    its error routine exits with.  [message_of] and [stack_of] are the
    wording of the errors of the engine. *)
Record Host : Type := {
  existsSync : string -> bool;
  isFile : string -> bool;
  writeFileSync : jsval -> string -> option jsval;
  JSON_parse : string -> string + jsval;
  LinkHeader_next : string -> list string;
  RegExp_replace : string -> string -> string -> option string;
  parseArgs : list Action -> command_line -> exit_status + jsval;
  parser_exit_status : Z;
  message_of : fault -> string;
  stack_of : fault -> string;
  respond : nat -> http_request -> reply
}.

(** The code the process exits with. *)
Definition exit_code (host : Host) (s : exit_status) : Z :=
  match s with
  | ExitCode n => n
  | ParserError _ | ArgumentRequired _ | ArgumentInvalid _ _ =>
      parser_exit_status host
  end.

(** What the program does to the world, in the order it does it: a request
    sent, a [sleep] awaited, a call of [console.log] or of [console.error],
    a file written by [fs.writeFileSync]. *)
Inductive event : Type :=
| EvRequest (r : http_request)
| EvSleep (msecs : option number)
| EvStdout (args : list jsval)
| EvStderr (args : list jsval)
| EvWriteFile (file : jsval) (data : string).

Record Zotero : Type := {
  args : jsval;
  output : string;
  config : jsval;
  headers : props
}.

Record state : Type := {
  this : Zotero;
  trace : list event
}.

Inductive result (A : Type) : Type :=
| Ok (a : A)
| Throw (e : jsval)
| Exit (s : exit_status)
| OutOfFuel.

Arguments Ok {A} a.
Arguments Throw {A} e.
Arguments Exit {A} s.
Arguments OutOfFuel {A}.

(** ** A state and exception monad for the methods of [Zotero] *)

Definition M (A : Type) : Type := state -> result A * state.

Definition ret {A} (a : A) : M A := fun st => (Ok a, st).

Definition bind {A B} (m : M A) (k : A -> M B) : M B :=
  fun st =>
    match m st with
    | (Ok a, st') => k a st'
    | (Throw e, st') => (Throw e, st')
    | (Exit s, st') => (Exit s, st')
    | (OutOfFuel, st') => (OutOfFuel, st')
    end.

Notation "x <- m ;; k" := (bind m (fun x => k))
  (at level 100, m at next level, right associativity).
Notation "m ;;; k" := (bind m (fun _ => k))
  (at level 100, right associativity).

Definition throw {A} (e : jsval) : M A := fun st => (Throw e, st).

Definition exit {A} (s : exit_status) : M A := fun st => (Exit s, st).

Definition emit (e : event) : M unit :=
  fun st => (Ok tt, {| this := this st; trace := trace st ++ [e] |}).

Definition get_this : M Zotero := fun st => (Ok (this st), st).

Definition set_this (z : Zotero) : M unit :=
  fun st => (Ok tt, {| this := z; trace := trace st |}).

(** [try { m } catch (ex) { h ex }] *)
Definition try_catch {A} (m : M A) (h : jsval -> M A) : M A :=
  fun st =>
    match m st with
    | (Throw e, st') => h e st'
    | r => r
    end.

(** The [TypeError] and the [SyntaxError] the engine throws for a fault. *)
Definition TypeError (host : Host) (f : fault) : jsval :=
  JErr "TypeError" (message_of host f) (stack_of host f).

Definition SyntaxError (host : Host) (f : fault) : jsval :=
  JErr "SyntaxError" (message_of host f) (stack_of host f).

(** [o.k], which throws on [undefined] and [null]. *)
Definition member (host : Host) (o : jsval) (k : string) : M jsval :=
  match o with
  | JUndefined | JNull => throw (TypeError host (ReadOf k o))
  | _ => ret (get_prop o k)
  end.

(** [this.args[k]] *)
Definition get_arg (k : string) : M jsval :=
  z <- get_this ;; ret (get_prop (args z) k).

Definition set_arg (k : string) (v : jsval) : M unit :=
  z <- get_this ;;
  set_this {| args := set_prop (args z) k v; output := output z;
              config := config z; headers := headers z |}.

Definition is_request (e : event) : bool :=
  match e with EvRequest _ => true | _ => false end.

Definition requests (tr : list event) : list event := filter is_request tr.

(** ** The class [Zotero] *)

Definition base : string := "https://api.zotero.org".

Definition initial_headers : props :=
  [ ("User-Agent", JStr "Zotero-CLI"); ("Zotero-API-Version", JStr "3") ].

(** [{ ...a, ...b }] *)
Definition spread (a b : props) : props :=
  fold_left (fun acc kv => put_key (fst kv) (snd kv) acc) b a.

(** The options of [get]; [None] where the caller passes none. *)
Record get_options : Type := {
  userOrGroupPrefix : option bool;
  params : option jsval;
  opt_resolveWithFullResponse : option bool;
  opt_json : option bool
}.

Definition no_options : get_options :=
  {| userOrGroupPrefix := None; params := None;
     opt_resolveWithFullResponse := None; opt_json := None |}.

Definition unscoped : get_options :=
  {| userOrGroupPrefix := Some false; params := None;
     opt_resolveWithFullResponse := None; opt_json := None |}.

Definition or_default {A} (o : option A) (d : A) : A :=
  match o with Some a => a | None => d end.

(** [this.args.user_id ? `/users/${...}` : `/groups/${...}`] *)
Definition prefix_of (a : jsval) : string :=
  if truthy (get_prop a "user_id")
  then "/users/" +++ ToString (get_prop a "user_id")
  else "/groups/" +++ ToString (get_prop a "group_id").

(** The query string [get] builds from [params]. *)
Definition query (params : jsval) : string :=
  join "&"
    (map (fun param =>
            let values := get_prop params param in
            let values := match values with JArr l => l | v => [v] end in
            join "&" (map (fun v => param +++ "=" +++ encodeURI v) values))
       (keys params)).

(** [print_item indent m] is what [print] maps [m] to before joining. *)
Definition print_item (indent : jsval) (m : jsval) : jsval :=
  match m with
  | JStr _ | JNum _ | JUndefined | JBool _ | JNull => m
  | JErr name message stack =>
      JStr ("<Error: " +++ ToString (js_or (JStr message) (JStr name))
            +++ (if truthy (JStr stack) then newline +++ stack else "") +++ ">")
  | _ =>
      if (js_typeof m =? "object") && truthy (get_prop m "message")
      then JStr ("<Error: " +++ ToString (get_prop m "message") +++ "#"
                 +++ newline +++ ToString (get_prop m "stack") +++ ">")
      else match JSON_stringify m indent with
           | Some t => JStr t
           | None => JUndefined
           end
  end.

Definition print (items : list jsval) : M unit :=
  z <- get_this ;;
  if negb (truthy (get_prop (args z) "out")) then emit (EvStdout items)
  else
    set_this
      {| args := args z;
         output := output z
                   +++ join_values " " (map (print_item (get_prop (args z) "indent")) items)
                   +++ newline;
         config := config z; headers := headers z |}.

Section Program.

Context (host : Host).

(** [request(r)] of request-promise. *)
Definition request (r : http_request) : M jsval :=
  fun st =>
    let st' := {| this := this st; trace := trace st ++ [EvRequest r] |} in
    match respond host (List.length (requests (trace st))) r with
    | Resolve v => (Ok v, st')
    | Reject e => (Throw e, st')
    end.

Definition sleep (msecs : option number) : M unit := emit (EvSleep msecs).

Definition log_request (verb u : string) : M unit :=
  verbose <- get_arg "verbose" ;;
  if truthy verbose then emit (EvStderr [JStr verb; JStr u]) else ret tt.

Definition get (u : string) (options : get_options) : M jsval :=
  let userOrGroupPrefix := or_default (userOrGroupPrefix options) true in
  let params := or_default (params options) (JObj true []) in
  let json := or_default (opt_json options) true in
  z <- get_this ;;
  let prefix := if userOrGroupPrefix then prefix_of (args z) else "" in
  let params := query params in
  let u := base +++ prefix +++ u
           +++ (if truthy (JStr params) then "?" +++ params else "") in
  log_request "GET" u ;;;
  request {| method := None; uri := u; req_headers := headers z;
             body := JUndefined; encoding := JNull; json := json;
             resolveWithFullResponse :=
               or_default (opt_resolveWithFullResponse options) false |}.

(** [link && LinkHeader.parse(link).rel('next')], as the list of the [uri]
    members; a falsy value is the empty list. *)
Definition rel_next (link : jsval) : list string :=
  if truthy link then LinkHeader_next host (ToString link) else [].

(** [chunk.headers.link && LinkHeader.parse(chunk.headers.link).rel('next')] *)
Definition next_link (chunk : jsval) : M (list string) :=
  h <- member host chunk "headers" ;;
  link <- member host h "link" ;;
  ret (rel_next link).

(** The [while] loop of [all]; [fuel] bounds the number of iterations. *)
Fixpoint all_loop (fuel : nat) (chunk data : jsval) (link : list string)
  : M jsval :=
  match link with
  | u :: _ =>
      if truthy (JStr u) then
        match fuel with
        | O => fun st => (OutOfFuel, st)
        | S fuel' =>
            h <- member host chunk "headers" ;;
            backoff <- member host h "backoff" ;;
            (if truthy backoff
             then sleep (js_mul (parseInt backoff) (Some (Finite 1000)))
             else ret tt) ;;;
            z <- get_this ;;
            chunk <- request {| method := None; uri := u;
                                req_headers := headers z; body := JUndefined;
                                encoding := JUndefined; json := true;
                                resolveWithFullResponse := true |} ;;
            _ <- member host data "concat" ;;
            b <- member host chunk "body" ;;
            data <- match concat data b with
                    | Some d => ret d
                    | None => throw (TypeError host (NotAFunction "data.concat"))
                    end ;;
            link <- next_link chunk ;;
            all_loop fuel' chunk data link
        end
      else ret data
  | [] => ret data
  end.

Definition all (fuel : nat) (u : string) (params : jsval) : M jsval :=
  chunk <- get u {| userOrGroupPrefix := None; params := Some params;
                    opt_resolveWithFullResponse := Some true;
                    opt_json := None |} ;;
  data <- member host chunk "body" ;;
  link <- next_link chunk ;;
  all_loop fuel chunk data link.

Definition json_headers (h : props) : props :=
  spread h [("Content-Type", JStr "application/json")].

Definition post (u : string) (data : jsval) (headers' : props) : M jsval :=
  z <- get_this ;;
  let prefix := prefix_of (args z) in
  let u := base +++ prefix +++ u in
  log_request "POST" u ;;;
  request {| method := Some "POST"; uri := u;
             req_headers := spread (json_headers (headers z)) headers';
             body := data; encoding := JUndefined; json := false;
             resolveWithFullResponse := false |}.

Definition put (u : string) (data : jsval) : M jsval :=
  z <- get_this ;;
  let prefix := prefix_of (args z) in
  let u := base +++ prefix +++ u in
  log_request "PUT" u ;;;
  request {| method := Some "PUT"; uri := u;
             req_headers := json_headers (headers z);
             body := data; encoding := JUndefined; json := false;
             resolveWithFullResponse := false |}.

(** The headers of [patch] and [delete]; [version] is [undefined] when the
    caller passes none. *)
Definition versioned_headers (h : props) (version : jsval) : props :=
  let headers := json_headers h in
  if negb (is_undefined version)
  then put_key "If-Unmodified-Since-Version" version headers
  else headers.

Definition patch (u : string) (data : jsval) (version : jsval) : M jsval :=
  z <- get_this ;;
  let prefix := prefix_of (args z) in
  let headers := versioned_headers (headers z) version in
  let u := base +++ prefix +++ u in
  log_request "PATCH" u ;;;
  request {| method := Some "PATCH"; uri := u; req_headers := headers;
             body := data; encoding := JUndefined; json := false;
             resolveWithFullResponse := false |}.

Definition delete (u : string) (version : jsval) : M jsval :=
  z <- get_this ;;
  let prefix := prefix_of (args z) in
  let headers := versioned_headers (headers z) version in
  let u := base +++ prefix +++ u in
  log_request "DELETE" u ;;;
  request {| method := Some "DELETE"; uri := u; req_headers := headers;
             body := JUndefined; encoding := JUndefined; json := false;
             resolveWithFullResponse := false |}.

Definition count (u : string) (params : jsval) : M jsval :=
  r <- get u {| userOrGroupPrefix := None; params := Some params;
                opt_resolveWithFullResponse := Some true; opt_json := None |} ;;
  h <- member host r "headers" ;;
  member host h "total-results".

Definition show (v : jsval) : M unit :=
  z <- get_this ;;
  match JSON_stringify v (get_prop (args z) "indent") with
  | None => throw (TypeError host (ReadOf "replace" JUndefined))
  | Some text =>
      match RegExp_replace host (ToString (get_prop (args z) "api_key"))
              text "<API-KEY>" with
      | None =>
          throw (SyntaxError host
                   (BadPattern (ToString (get_prop (args z) "api_key"))))
      | Some text => print [JStr text]
      end
  end.

(** The one-character strings a string iterates over. *)
Fixpoint characters (s : string) : list jsval :=
  match s with
  | String c r => JStr (String c "") :: characters r
  | EmptyString => []
  end.

(** [for (const x of v) body]: arrays and strings are iterable. *)
Definition for_of (v : jsval) (body : jsval -> M unit) : M unit :=
  match v with
  | JArr l => fold_left (fun m x => m ;;; body x) l (ret tt)
  | JStr s => fold_left (fun m x => m ;;; body x) (characters s) (ret tt)
  | _ => throw (TypeError host (NotIterable v))
  end.

(** *** Two of the commands *)

(** [$key] *)
Definition cmd_key : M unit :=
  key <- get_arg "api_key" ;;
  v <- get ("/keys/" +++ ToString key) unscoped ;;
  show v.

(** [$delete] *)
Definition cmd_delete : M unit :=
  uris <- get_arg "uri" ;;
  for_of uris
    (fun u =>
       response <- get (ToString u) no_options ;;
       version <- member host response "version" ;;
       delete (ToString u) version ;;;
       ret tt).

End Program.

(** ** Configuration resolution, [run] lines 86-175 *)

Definition environment : Type := list (string * string).

(** [process.env[k]] *)
Fixpoint getenv (env : environment) (k : string) : jsval :=
  match env with
  | [] => JUndefined
  | (k', v) :: r => if k =? k' then JStr v else getenv r k
  end.

(** [option.dest.replace(/_/g, '-')] *)
Definition config_key (d : string) : string := replace_char "_" "-" d.

(** Lines 86-96: a user or group id of the command line replaces those of
    the configuration file. *)
Definition overwrite_scope (a c : jsval) : jsval :=
  if truthy (get_prop a "user_id") || truthy (get_prop a "group_id") then
    let c := delete_prop c "user-id" in
    let c := delete_prop c "group-id" in
    let c := set_prop c "user-id" (get_prop a "user_id") in
    let c := set_prop c "group-id" (get_prop a "group_id") in
    let c := if negb (truthy (get_prop c "user-id")) then delete_prop c "user-id" else c in
    let c := if negb (truthy (get_prop c "group-id")) then delete_prop c "group-id" else c in
    c
  else c.

(** [(this.config[this.args.command] || {})[key]] *)
Definition command_config (c a : jsval) (d : string) : jsval :=
  get_prop (js_or (get_prop c (ToString (get_prop a "command"))) (JObj true []))
    (config_key d).

(** [this.config[key]] *)
Definition global_config (c : jsval) (d : string) : jsval :=
  get_prop c (config_key d).

(** Lines 110-111, and again 121-122. *)
Definition lookup_config (c a : jsval) (d : string) : jsval :=
  let value := command_config c a d in
  if is_undefined value then global_config c d else value.

(** Line 116. *)
Definition lookup_env (env : environment) (d : string) : jsval :=
  js_or (getenv env ("ZOTERO_CLI_" +++ toUpperCase d))
        (getenv env ("ZOTERO_" +++ toUpperCase d)).

(** Lines 106-123: the raw value of the option [d], [undefined] if no source
    has one. *)
Definition raw_value (c : jsval) (env : environment) (a : jsval) (d : string)
  : jsval :=
  let value := JUndefined in
  let value :=
    if is_undefined value && truthy (get_prop a "config")
    then lookup_config c a d else value in
  let value := if is_undefined value then lookup_env env d else value in
  let value := if is_undefined value then lookup_config c a d else value in
  value.

(** The object literal of lines 148-156. *)
Definition flags : jsval :=
  JObj true
    [ ("true", JBool true); ("yes", JBool true); ("on", JBool true);
      ("false", JBool false); ("no", JBool false); ("off", JBool false) ].

Definition has_action (o : Action) (name : string) : bool :=
  match action o with
  | Some n => n =? name
  | None => false
  end.

Section Resolution.

Context (host : Host).

(** [fs.existsSync(v)] *)
Definition exists_path (v : jsval) : bool :=
  match v with
  | JStr p => existsSync host p
  | _ => false
  end.

(** [fs.lstatSync(v).isFile()], for a path that exists. *)
Definition is_file (v : jsval) : bool :=
  match v with
  | JStr p => isFile host p
  | _ => false
  end.

(** Lines 127-162: [inl message] stands for [this.parser.error(message)]. *)
Definition coerce (o : Action) (d : string) (value : jsval) : string + jsval :=
  if argtype_eqb (type o) arg_integer then
    match parseInt value with
    | None => inl (d +++ " must be numeric, not " +++ ToString value)
    | Some n => inr (JNum n)
    end
  else if argtype_eqb (type o) arg_path then
    if negb (exists_path value)
    then inl (d +++ ": " +++ ToString value +++ " does not exist")
    else inr value
  else if argtype_eqb (type o) arg_file then
    if negb (exists_path value) || negb (is_file value)
    then inl (d +++ ": " +++ ToString value +++ " is not a file")
    else inr value
  else if argtype_eqb (type o) arg_json && is_string value then
    match JSON_parse host (ToString value) with
    | inr v => inr v
    | inl _ =>
        inl (d +++ ": " +++ ToString (match JSON_stringify value JUndefined with
                                      | Some t => JStr t
                                      | None => JUndefined
                                      end)
             +++ " is not valid JSON")
    end
  else
    match choices o with
    | Some l =>
        if negb (includes l value)
        then inl (d +++ " must be one of " +++ ToString (JArr l))
        else inr value
    | None =>
        if has_action o "storeTrue" && is_string value then
          let _value := get_prop flags (ToString value) in
          if is_undefined _value
          then inl ("%{option.dest} must be boolean, not " +++ ToString value)
          else inr _value
        else inr value
    end.

(** One iteration of the loop of lines 100-165 on the arguments [a]. *)
Definition resolve_option (c : jsval) (env : environment) (o : Action)
  (a : jsval) : string + jsval :=
  match dest o with
  | None => inr a
  | Some d =>
      if negb (truthy (JStr d)) then inr a
      else if mem_string d ["help"; "config"] then inr a
      else if negb (is_null (get_prop a d)) then inr a
      else
        let value := raw_value c env a d in
        if is_undefined value then inr a
        else
          match coerce o d value with
          | inl message => inl message
          | inr value => inr (set_prop a d value)
          end
  end.

Fixpoint resolve_options (c : jsval) (env : environment)
  (options : list Action) (a : jsval) : string + jsval :=
  match options with
  | [] => inr a
  | o :: r =>
      match resolve_option c env o a with
      | inl message => inl message
      | inr a' => resolve_options c env r a'
      end
  end.

Definition scope_message : string :=
  "You must provide exactly one of --user-id or --group-id".

(** Lines 167-171, on the resolved arguments. *)
Definition check_arguments (a : jsval) : option string :=
  if negb (truthy (get_prop a "api_key")) then Some "no API key provided"
  else if is_null (get_prop a "user_id") && is_null (get_prop a "group_id")
  then Some scope_message
  else if negb (is_null (get_prop a "user_id"))
          && negb (is_null (get_prop a "group_id"))
  then Some scope_message
  else None.

(** Lines 100-171: the resolved arguments, or the message
    [this.parser.error] is called with. *)
Definition configure (options : list Action) (c : jsval) (env : environment)
  (a : jsval) : string + jsval :=
  match resolve_options c env options a with
  | inl message => inl message
  | inr a =>
      match check_arguments a with
      | Some message => inl message
      | None => inr a
      end
  end.

(** Line 172: the user id 0 stands for the owner of the key. *)
Definition self_id : M unit :=
  id <- get_arg "user_id" ;;
  match id with
  | JNum 0 =>
      key <- get_arg "api_key" ;;
      info <- get host ("/keys/" +++ ToString key) unscoped ;;
      id <- member host info "userID" ;;
      set_arg "user_id" id
  | _ => ret tt
  end.

(** Line 175. *)
Definition default_indent : M unit :=
  indent <- get_arg "indent" ;;
  if is_null indent then set_arg "indent" (JNum 2) else ret tt.

(** [fs.writeFileSync(f, data)]: the file is written, or the error of the
    file system is thrown. *)
Definition write_file (f : jsval) (data : string) : M unit :=
  fun st =>
    match writeFileSync host f data with
    | None => (Ok tt, {| this := this st; trace := trace st ++ [EvWriteFile f data] |})
    | Some e => (Throw e, st)
    end.

(** Lines 177-185. *)
Definition call_command (handler : M unit) : M unit :=
  try_catch handler
    (fun ex =>
       print [JStr "Command execution failed: "; ex] ;;;
       exit (ExitCode 1)) ;;;
  out <- get_arg "out" ;;
  if truthy out
  then z <- get_this ;; write_file out (output z)
  else ret tt.

(** The object [run] works on once the arguments are resolved. *)
Definition configured (c a : jsval) : Zotero :=
  {| args := a; output := ""; config := c;
     headers := put_key "Zotero-API-Key" (get_prop a "api_key") initial_headers |}.

(** Lines 168-175, once the arguments [a] are resolved and checked. *)
Definition prepare (c a : jsval) : M unit :=
  set_this (configured c a) ;;;
  self_id ;;;
  default_indent.

(** [run], from line 86 on: [a] is what [parseArgs] returned, [c] the
    configuration file as parsed, [options] the value of line 99 and
    [handler] the method of the command. *)
Definition run (options : list Action) (c : jsval) (env : environment)
  (handler : M unit) (a : jsval) : M unit :=
  let c := overwrite_scope a c in
  match configure options c env a with
  | inl message => exit (ParserError message)
  | inr a =>
      prepare c a ;;;
      call_command handler
  end.

(** *** The converters of [arg], lines 24-43; [inl] is the message of the
    error thrown. *)

Definition stringified (v : jsval) : string :=
  ToString (match JSON_stringify v JUndefined with
            | Some t => JStr t
            | None => JUndefined
            end).

Definition arg_convert (t : argtype) (v : jsval) : string + jsval :=
  match t with
  | arg_integer =>
      match parseInt v with
      | None => inl (stringified v +++ " is not an integer")
      | Some n => inr (JNum n)
      end
  | arg_file =>
      if negb (exists_path v) || negb (is_file v)
      then inl (stringified v +++ " is not a file")
      else inr v
  | arg_path =>
      if negb (exists_path v)
      then inl (stringified v +++ " does not exist")
      else inr v
  | arg_json => JSON_parse host (ToString v)
  | arg_none => inr v
  end.

(** *** The process *)

(** One invocation: [actions] are the actions of the parser and of the
    sub-parser of the command, [options] is the value of line 99. *)
Record Invocation : Type := {
  actions : list Action;
  options : list Action;
  argv : command_line;
  file : jsval;
  env : environment;
  handler : M unit
}.

Definition start : state :=
  {| this := {| args := JUndefined; output := ""; config := JUndefined;
                headers := initial_headers |};
     trace := [] |}.

(** [.catch(err => { console.error('error:', err); process.exit(1) })], and
    the end of the process: how it ends, [None] if the model ran out of fuel,
    and the state it ends in. *)
Definition finish (r : result unit * state) : option exit_status * state :=
  match r with
  | (Ok _, st) => (Some (ExitCode 0), st)
  | (Throw err, st) =>
      (Some (ExitCode 1),
       {| this := this st;
          trace := trace st ++ [EvStderr [JStr "error:"; err]] |})
  | (Exit s, st) => (Some s, st)
  | (OutOfFuel, st) => (None, st)
  end.

(** [(new Zotero).run().catch(...)] *)
Definition main (inv : Invocation) : option exit_status * state :=
  match parseArgs host (actions inv) (argv inv) with
  | inl e => (Some e, start)
  | inr a =>
      finish (run (options inv) (file inv) (env inv) (handler inv) a start)
  end.

End Resolution.

(** ** Definitions the statements are written with *)




Definition is_digit (c : ascii) : bool :=
  ((48 <=? code c) && (code c <=? 57))%Z.

Fixpoint all_digits (s : string) : bool :=
  match s with
  | String c r => is_digit c && all_digits r
  | EmptyString => true
  end.

Definition nonempty (s : string) : bool := negb (s =? "").

(** A base-10 integer numeral: an optional sign and one or more decimal
    digits. *)
Definition decimal_numeral (s : string) : bool :=
  match s with
  | String c r =>
      if (c =? "-")%char || (c =? "+")%char
      then nonempty r && all_digits r
      else all_digits s
  | EmptyString => false
  end.

Fixpoint digits_value (s : string) (acc : Z) : Z :=
  match s with
  | String c r => digits_value r (10 * acc + (code c - 48))%Z
  | EmptyString => acc
  end.

(** The integer a base-10 numeral denotes. *)
Definition decimal_value (s : string) : Z :=
  match s with
  | String c r =>
      if (c =? "-")%char then (- digits_value r 0)%Z
      else if (c =? "+")%char then digits_value r 0
      else digits_value s 0
  | EmptyString => 0%Z
  end.

(** What may follow a numeral without changing what [parseInt] reads:
    nothing, or a character that is neither a decimal digit nor the [x] of
    a hexadecimal prefix. *)
Definition ends_numeral (t : string) : bool :=
  match t with
  | String c _ => negb (is_digit c) && negb (c =? "x")%char && negb (c =? "X")%char
  | EmptyString => true
  end.










(** [occurs needle s]: [needle] is a substring of [s]. *)
Fixpoint occurs (needle s : string) : bool :=
  prefix needle s
  || match s with
     | String _ r => occurs needle r
     | EmptyString => false
     end.

(** *** The pages of a traversal *)

Section Pages.

Context (host : Host).

(** The [uri] the loop of [all] follows after the response [chunk], if it
    goes on. *)
Definition next_uri (chunk : jsval) : option string :=
  match rel_next host (get_prop (get_prop chunk "headers") "link") with
  | u :: _ => if truthy (JStr u) then Some u else None
  | [] => None
  end.

(** The [backoff] header of a response. *)
Definition backoff_of (chunk : jsval) : jsval :=
  get_prop (get_prop chunk "headers") "backoff".

(** The records of a response whose body is an array. *)
Definition records_of (chunk : jsval) : list jsval :=
  match get_prop chunk "body" with
  | JArr l => l
  | _ => []
  end.

(** [v] is neither [undefined] nor [null]. *)
Definition is_value (v : jsval) : bool :=
  negb (is_undefined v) && negb (is_null v).

(** A response [all] can read: it has headers, and its body is an array. *)
Definition is_page (chunk : jsval) : Prop :=
  (exists l, get_prop chunk "body" = JArr l)
  /\ is_value (get_prop chunk "headers") = true.

(** The request of the loop of [all] for the next page. *)
Definition page_request (h : props) (u : string) : http_request :=
  {| method := None; uri := u; req_headers := h; body := JUndefined;
     encoding := JUndefined; json := true; resolveWithFullResponse := true |}.

(** The first request of [all], made through [get]. *)
Definition first_request (z : Zotero) (u : string) (params : jsval)
  : http_request :=
  let q := query params in
  {| method := None;
     uri := base +++ prefix_of (args z) +++ u
            +++ (if truthy (JStr q) then "?" +++ q else "");
     req_headers := headers z; body := JUndefined; encoding := JNull;
     json := true; resolveWithFullResponse := true |}.

(** [follows h n chunk rest]: after the response [chunk], and [n] requests,
    the remote API serves the pages [rest] one after the other, each at the
    next link of the page before it, and the last page has no next link. *)
Fixpoint follows (h : props) (n : nat) (chunk : jsval) (rest : list jsval)
  : Prop :=
  match rest with
  | [] => next_uri chunk = None
  | p :: rest' =>
      exists u,
        next_uri chunk = Some u
        /\ respond host n (page_request h u) = Resolve p
        /\ is_page p
        /\ follows h (S n) p rest'
  end.

(** The remote API serves the pages [p :: rest] to [all u params] called in
    the state [st]. *)
Definition serves (st : state) (u : string) (params : jsval) (p : jsval)
  (rest : list jsval) : Prop :=
  let n := List.length (requests (trace st)) in
  respond host n (first_request (this st) u params) = Resolve p
  /\ is_page p
  /\ follows (headers (this st)) (S n) p rest.

(** The sleep [all] makes after a response that has a next link. *)
Definition pause (chunk : jsval) : list event :=
  if truthy (backoff_of chunk)
  then [EvSleep (js_mul (parseInt (backoff_of chunk)) (Some (Finite 1000)))]
  else [].

(** The events of the loop of [all] after the response [chunk]. *)
Fixpoint schedule (h : props) (chunk : jsval) (rest : list jsval)
  : list event :=
  match rest with
  | [] => []
  | p :: rest' =>
      match next_uri chunk with
      | Some u => pause chunk ++ EvRequest (page_request h u) :: schedule h p rest'
      | None => []
      end
  end.

(** What [get] writes on the error stream before its request. *)
Definition logged (z : Zotero) (verb u : string) : list event :=
  if truthy (get_prop (args z) "verbose")
  then [EvStderr [JStr verb; JStr u]] else [].

End Pages.

(** ** Examples: a host, and invocations *)

(** [s.replace(new RegExp(p, 'g'), r)] for a pattern of letters and digits,
    which matches itself; [skip] characters of [s] belong to the last
    match. *)
Fixpoint replace_from (p r : string) (skip : nat) (s : string) : string :=
  match s with
  | EmptyString => EmptyString
  | String c s' =>
      match skip with
      | S k => replace_from p r k s'
      | O =>
          if prefix p s then r +++ replace_from p r (String.length p - 1) s'
          else String c (replace_from p r 0 s')
      end
  end.

Fixpoint until (c : ascii) (s : string) : string :=
  match s with
  | EmptyString => EmptyString
  | String x r => if (x =? c)%char then EmptyString else String x (until c r)
  end.

(** The target of a link header of the form [<uri>; rel=next]. *)
Definition link_target (h : string) : list string :=
  match h with
  | String "<" r => if occurs "rel=next" r then [until ">" r] else []
  | _ => []
  end.

Definition refused : jsval := JErr "RequestError" "connect ECONNREFUSED" "".

(** *** The argument parser of the examples

    argparse on a command line of options that take one argument, of flags
    and of the name of the command; the library is not part of the
    repository, and the theorems hold of every parser.  The result has first
    the defaults of the actions that have one, in the order of registration
    (a flag that is not given is [false], an option that is not given is
    [null], and [help] sets no member; [--help] ends the process with the
    code 0).  The arguments are then converted by
    the [type] of their action and stored, in the order of the command line,
    the first failure ending the process; the required options are checked
    after that, and what belongs to no action is an error in the end. *)

Fixpoint given (d : string) (cl : command_line) : option string :=
  match cl with
  | [] => None
  | (d', raw) :: r => if d =? d' then Some raw else given d r
  end.

Fixpoint find_action (d : string) (actions : list Action) : option Action :=
  match actions with
  | [] => None
  | o :: r =>
      match dest o with
      | Some d' => if d =? d' then Some o else find_action d r
      | None => find_action d r
      end
  end.

Fixpoint defaults (actions : list Action) (ns : props) : props :=
  match actions with
  | [] => ns
  | o :: r =>
      defaults r
        (match dest o, defaultValue o with
         | Some d, Some v =>
             match assoc d ns with
             | Some _ => ns
             | None => put_key d v ns
             end
         | _, _ => ns
         end)
  end.

Fixpoint consume (host : Host) (actions : list Action) (cl : command_line)
  (ns : props) : exit_status + props :=
  match cl with
  | [] => inr ns
  | (d, raw) :: r =>
      match find_action d actions with
      | None => consume host actions r ns
      | Some o =>
          if d =? "help" then inl (ExitCode 0) else
          match constant o with
          | Some c => consume host actions r (put_key d c ns)
          | None =>
              match arg_convert host (type o) (JStr raw) with
              | inl message => inl (ArgumentInvalid d message)
              | inr v =>
                  match choices o with
                  | Some l =>
                      if includes l v
                      then consume host actions r (put_key d v ns)
                      else inl (ArgumentInvalid d "Invalid choice")
                  | None => consume host actions r (put_key d v ns)
                  end
              end
          end
      end
  end.

(** The first required option the command line does not give. *)
Fixpoint missing (actions : list Action) (cl : command_line) : option string :=
  match actions with
  | [] => None
  | o :: r =>
      match dest o with
      | Some d =>
          if required o
          then match given d cl with
               | None => Some d
               | Some _ => missing r cl
               end
          else missing r cl
      | None => missing r cl
      end
  end.

Fixpoint unrecognized (actions : list Action) (cl : command_line)
  : option string :=
  match cl with
  | [] => None
  | (d, raw) :: r =>
      match find_action d actions with
      | None => Some raw
      | Some _ => unrecognized actions r
      end
  end.

Definition argparse (host : Host) (actions : list Action) (cl : command_line)
  : exit_status + jsval :=
  match consume host actions cl (defaults actions []) with
  | inl e => inl e
  | inr ns =>
      match missing actions cl with
      | Some d => inl (ArgumentRequired d)
      | None =>
          match unrecognized actions cl with
          | Some raw => inl (ParserError ("Unrecognized arguments: " +++ raw))
          | None => inr (JObj true ns)
          end
      end
  end.

(** The wording of an engine, without stack traces. *)
Definition wording (f : fault) : string :=
  match f with
  | ReadOf k o =>
      "Cannot read properties of " +++ ToString o +++ " (reading '" +++ k +++ "')"
  | NotAFunction name => name +++ " is not a function"
  | NotIterable v => ToString v +++ " is not iterable"
  | NotAPath v => "The path argument must be of type string"
  | BadPattern p => "Invalid regular expression: /" +++ p +++ "/"
  end.

(** A machine with an empty file system, whose files are written by [write]
    and whose network answers by [answer].  Its [JSON_parse] is the one of a
    text that ends too early, its parser is [argparse] and the exit status
    of the error routine is the 2 of that library. *)
Definition machine (write : jsval -> string -> option jsval)
  (answer : nat -> http_request -> reply) : Host :=
  let bare :=
    {| existsSync := fun _ => false;
       isFile := fun _ => false;
       writeFileSync := write;
       JSON_parse := fun _ => inl "Unexpected end of JSON input";
       LinkHeader_next := link_target;
       RegExp_replace := fun p s r => Some (replace_from p r 0 s);
       parseArgs := fun _ _ => inl (ParserError "");
       parser_exit_status := 2;
       message_of := wording;
       stack_of := fun _ => "";
       respond := answer |} in
  {| existsSync := existsSync bare;
     isFile := isFile bare;
     writeFileSync := write;
     JSON_parse := JSON_parse bare;
     LinkHeader_next := link_target;
     RegExp_replace := RegExp_replace bare;
     parseArgs := argparse bare;
     parser_exit_status := 2;
     message_of := wording;
     stack_of := fun _ => "";
     respond := answer |}.

Definition written : jsval -> string -> option jsval := fun _ _ => None.

(** A host with no network. *)
Definition offline : Host := machine written (fun _ _ => Reject refused).

Definition response (records : list jsval) (h : props) : jsval :=
  JObj true [("body", JArr records); ("headers", JObj true h)].

Definition page1 : jsval :=
  response [JStr "A"; JStr "B"]
    [ ("link", JStr "<https://api.zotero.org/users/5/items?start=2>; rel=next");
      ("backoff", JStr "3") ].

Definition page2 : jsval :=
  response [JStr "C"]
    [ ("link", JStr "<https://api.zotero.org/users/5/items?start=3>; rel=next") ].

Definition page3 : jsval := response [JStr "D"] [].

Definition plain1 : jsval :=
  response [JStr "A"; JStr "B"]
    [ ("link", JStr "<https://api.zotero.org/users/5/items?start=2>; rel=next") ].

(** A remote API that serves three pages, the first with a backoff of three
    seconds, whatever the request. *)
Definition three_pages : Host :=
  machine written
    (fun n _ =>
       match n with
       | 0%nat => Resolve page1
       | 1%nat => Resolve page2
       | 2%nat => Resolve page3
       | _ => Reject refused
       end).

(** The same pages with no backoff header. *)
Definition three_plain_pages : Host :=
  machine written
    (fun n _ =>
       match n with
       | 0%nat => Resolve plain1
       | 1%nat => Resolve page2
       | 2%nat => Resolve page3
       | _ => Reject refused
       end).

(** A remote API that knows the key and rejects every write with a
    conflict. *)
Definition conflict : jsval := JErr "StatusCodeError" "412 - Precondition Failed" "".

Definition key_info : jsval :=
  JObj true [("key", JStr "P9NiFoyLeZu2bZNv"); ("userID", JNum 475425)].

Definition api : Host :=
  machine written
    (fun _ r =>
       match method r with
       | None => Resolve key_info
       | Some _ => Reject conflict
       end).

(** The same remote API on a machine whose file system has no directory
    for the file of [--out]. *)
Definition enoent : jsval :=
  JErr "Error" "ENOENT: no such file or directory, open 'key.json'" "".

Definition no_directory : Host := machine (fun _ _ => Some enoent) (respond api).

(** The object of a user library, as [run] leaves it for the commands. *)
Definition user_library : state :=
  {| this := configured (JObj true [])
               (JObj true [ ("api_key", JStr "P9NiFoyLeZu2bZNv");
                            ("user_id", JNum 5); ("group_id", JNull);
                            ("indent", JNum 2); ("out", JNull);
                            ("verbose", JBool false) ]);
     trace := [] |}.

(** The action of the sub-commands: it stores the name of the command. *)
Definition subparsers : Action :=
  {| dest := Some "command"; type := arg_none; choices := None;
     action := None; required := true; constant := None;
     defaultValue := Some JNull |}.

Definition key_actions : list Action := global_actions ++ [subparsers].

(** [zotero-cli --api-key P9NiFoyLeZu2bZNv --user-id 5 --verbose key] *)
Definition verbose_key (host : Host) : Invocation :=
  {| actions := key_actions; options := global_actions;
     argv := [ ("api_key", "P9NiFoyLeZu2bZNv"); ("user_id", "5");
               ("verbose", "true"); ("command", "key") ];
     file := JObj false []; env := [];
     handler := cmd_key host |}.

(** [zotero-cli --api-key P9NiFoyLeZu2bZNv --user-id 5 key] *)
Definition plain_key (host : Host) : Invocation :=
  {| actions := key_actions; options := global_actions;
     argv := [ ("api_key", "P9NiFoyLeZu2bZNv"); ("user_id", "5");
               ("command", "key") ];
     file := JObj false []; env := [];
     handler := cmd_key host |}.

(** [zotero-cli --api-key P9NiFoyLeZu2bZNv --user-id 5 --out key.json key] *)
Definition key_to_file (host : Host) : Invocation :=
  {| actions := key_actions; options := global_actions;
     argv := [ ("api_key", "P9NiFoyLeZu2bZNv"); ("user_id", "5");
               ("out", "key.json"); ("command", "key") ];
     file := JObj false []; env := [];
     handler := cmd_key host |}.

(** [zotero-cli key] with nothing configured. *)
Definition bare_key (host : Host) : Invocation :=
  {| actions := key_actions; options := global_actions;
     argv := [ ("command", "key") ]; file := JObj false []; env := [];
     handler := cmd_key host |}.

(** [zotero-cli --api-key P9NiFoyLeZu2bZNv key], with no library. *)
Definition key_without_library (host : Host) : Invocation :=
  {| actions := key_actions; options := global_actions;
     argv := [ ("api_key", "P9NiFoyLeZu2bZNv"); ("command", "key") ];
     file := JObj false []; env := [];
     handler := cmd_key host |}.

(** [zotero-cli --api-key P9NiFoyLeZu2bZNv --user-id 5 key] with
    [ZOTERO_GROUP_ID=7] in the environment. *)
Definition key_with_two_libraries (host : Host) : Invocation :=
  {| actions := key_actions; options := global_actions;
     argv := [ ("api_key", "P9NiFoyLeZu2bZNv"); ("user_id", "5");
               ("command", "key") ];
     file := JObj false []; env := [ ("ZOTERO_GROUP_ID", "7") ];
     handler := cmd_key host |}.








(** Arguments that leave [indent] to the configuration, for the command
    [items]; [with_config] is the same with [--config my.toml]. *)
Definition items_args : jsval :=
  JObj true [ ("command", JStr "items"); ("config", JNull); ("indent", JNull) ].


(** A configuration file with [indent] in its global section and in the
    section of [items], and one with the global [indent] only. *)
Definition both_sections : jsval :=
  JObj false [ ("indent", JNum 6); ("items", JObj false [("indent", JNum 4)]) ].


Definition indent_env : environment := [ ("ZOTERO_CLI_INDENT", "8") ].

(** [zotero-cli --api-key P9NiFoyLeZu2bZNv --user-id 5 key] with
    [ZOTERO_CLI_VERBOSE] set to [value] in the environment. *)
Definition flag_from_environment (host : Host) (value : string) : Invocation :=
  {| actions := key_actions; options := global_actions;
     argv := [ ("api_key", "P9NiFoyLeZu2bZNv"); ("user_id", "5");
               ("command", "key") ];
     file := JObj false []; env := [ ("ZOTERO_CLI_VERBOSE", value) ];
     handler := cmd_key host |}.

(** ** More of the commands *)

Section Commands.

Context (host : Host).

(** [v.length]; it throws on [undefined] and [null]. *)
Definition length_of (v : jsval) : M jsval :=
  match v with
  | JUndefined | JNull =>
      throw (TypeError host (ReadOf "length" v))
  | JArr l => ret (JNum (Z.of_nat (List.length l)))
  | JStr s => ret (JNum (Z.of_nat (String.length s)))
  | _ => ret JUndefined
  end.

(** [v[0]] *)
Definition first_of (v : jsval) : M jsval :=
  match v with
  | JUndefined | JNull =>
      throw (TypeError host (ReadOf "0" v))
  | JArr (x :: _) => ret x
  | JArr [] => ret JUndefined
  | JStr (String c _) => ret (JStr (String c ""))
  | _ => ret (get_prop v "0")
  end.

(** The index of the first element of [l] that is [v], counted from [i]. *)
Fixpoint index_from (i : Z) (v : jsval) (l : list jsval) : Z :=
  match l with
  | [] => (-1)%Z
  | x :: r => if same_value_zero v x then i else index_from (i + 1)%Z v r
  end.

(** The index of the first occurrence of [needle] in [s], counted from [i]. *)
Fixpoint position_from (i : Z) (needle s : string) : Z :=
  if prefix needle s then i
  else match s with
       | String _ r => position_from (i + 1)%Z needle r
       | EmptyString => (-1)%Z
       end.

(** [l] without its first element that is [v]. *)
Fixpoint remove_first (v : jsval) (l : list jsval) : list jsval :=
  match l with
  | [] => []
  | x :: r => if same_value_zero v x then r else x :: remove_first v r
  end.

Definition not_a_function (name : string) : jsval :=
  TypeError host (NotAFunction name).

(** [c.includes(key)], a method of arrays and of strings. *)
Definition includes_of (c key : jsval) : M bool :=
  match c with
  | JUndefined | JNull =>
      throw (TypeError host (ReadOf "includes" c))
  | JArr l => ret (includes l key)
  | JStr s => ret (occurs (ToString key) s)
  | _ => throw (not_a_function "includes")
  end.

(** [c.indexOf(key)], a method of arrays and of strings.  No value of the
    model is [NaN], so that strict equality is [same_value_zero]. *)
Definition indexOf (c key : jsval) : M Z :=
  match c with
  | JUndefined | JNull =>
      throw (TypeError host (ReadOf "indexOf" c))
  | JArr l => ret (index_from 0 key l)
  | JStr s => ret (position_from 0 (ToString key) s)
  | _ => throw (not_a_function "indexOf")
  end.

(** [c.concat(key)] *)
Definition concat_of (c key : jsval) : M jsval :=
  match c with
  | JUndefined | JNull =>
      throw (TypeError host (ReadOf "concat" c))
  | _ =>
      match concat c key with
      | Some v => ret v
      | None => throw (not_a_function "concat")
      end
  end.

(** [c.splice(index, 1)] at the index [indexOf] found for [key]: what [c]
    is afterwards.  Only arrays have the method. *)
Definition splice_at (c key : jsval) : M jsval :=
  match c with
  | JArr l => ret (JArr (remove_first key l))
  | _ => throw (not_a_function "splice")
  end.

(** [JSON.stringify({ collections: c })] *)
Definition collections_body (c : jsval) : jsval :=
  match JSON_stringify (JObj true [("collections", c)]) JUndefined with
  | Some t => JStr t
  | None => JUndefined
  end.

(** [this.parser.error(message)] *)
Definition parser_error {A} (message : string) : M A :=
  exit (ParserError message).

(** [fs.readFileSync(path)]: the contents of the file, or the error
    thrown. *)
Context (readFileSync : string -> jsval + jsval).

Definition read_file (path : jsval) : M jsval :=
  match path with
  | JStr p =>
      match readFileSync p with
      | inr contents => ret contents
      | inl e => throw e
      end
  | _ => throw (TypeError host (NotAPath path))
  end.

(** The body of the loop of [$collection] over [--add], lines 360-362. *)
Definition add_to_collection (itemKey : jsval) : M unit :=
  item <- get host ("/items/" +++ ToString itemKey) no_options ;;
  data <- member host item "data" ;;
  collections <- member host data "collections" ;;
  key <- get_arg "key" ;;
  found <- includes_of collections key ;;
  if found then ret tt
  else
    added <- concat_of collections key ;;
    version <- member host item "version" ;;
    patch host ("/items/" +++ ToString itemKey) (collections_body added) version ;;;
    ret tt.

(** The body of the loop of [$collection] over [--remove], lines 368-373. *)
Definition remove_from_collection (itemKey : jsval) : M unit :=
  item <- get host ("/items/" +++ ToString itemKey) no_options ;;
  data <- member host item "data" ;;
  collections <- member host data "collections" ;;
  key <- get_arg "key" ;;
  index <- indexOf collections key ;;
  collections <- (if (-1 <? index)%Z then splice_at collections key
                  else ret collections) ;;
  version <- member host item "version" ;;
  patch host ("/items/" +++ ToString itemKey) (collections_body collections)
    version ;;;
  ret tt.

(** [$collection], lines 345-377. *)
Definition cmd_collection : M unit :=
  tags <- get_arg "tags" ;;
  add <- get_arg "add" ;;
  if truthy tags && truthy add
  then parser_error "--tags cannot be combined with --add"
  else
    itemkeys <- get_arg "itemkeys" ;;
    n <- (if truthy add then length_of itemkeys else ret JUndefined) ;;
    if truthy add && negb (truthy n)
    then parser_error "--add requires item keys"
    else
      n <- (if negb (truthy add) then length_of itemkeys else ret JUndefined) ;;
      if negb (truthy add) && truthy n
      then parser_error "unexpected item keys"
      else
        (if truthy add then for_of host itemkeys add_to_collection else ret tt) ;;;
        remove <- get_arg "remove" ;;
        (if truthy remove then for_of host remove remove_from_collection
         else ret tt) ;;;
        key <- get_arg "key" ;;
        v <- get host ("/collections/" +++ ToString key
                       +++ (if truthy tags then "/tags" else ""))
               no_options ;;
        show host v.

(** [$update_item], lines 716-719. *)
Definition cmd_update_item : M unit :=
  key <- get_arg "key" ;;
  originalItem <- get host ("/items/" +++ ToString key) no_options ;;
  items <- get_arg "items" ;;
  for_of host items
    (fun item =>
       replace <- get_arg "replace" ;;
       key <- get_arg "key" ;;
       data <- read_file item ;;
       version <- member host originalItem "version" ;;
       if truthy replace
       then put host ("/items/" +++ ToString key) data ;;; ret tt
       else patch host ("/items/" +++ ToString key) data version ;;; ret tt).

(** [$searches], lines 619-637. *)
Definition cmd_searches : M unit :=
  create <- get_arg "create" ;;
  if truthy create then
    searchDef <-
      try_catch
        (path <- first_of create ;;
         text <- read_file path ;;
         match JSON_parse host (ToString text) with
         | inr v => ret v
         | inl message => throw (JErr "SyntaxError" message "")
         end)
        (fun ex =>
           emit (EvStdout [JStr "Invalid search definition: "; ex]) ;;;
           ret (JArr [])) ;;
    let searchDef := match searchDef with
                     | JArr _ => searchDef
                     | _ => JArr [searchDef]
                     end in
    post host "/searches"
      (match JSON_stringify searchDef JUndefined with
       | Some t => JStr t
       | None => JUndefined
       end) [] ;;;
    print [JStr "Saved search(s) created successfully."]
  else
    items <- get host "/searches" no_options ;;
    show host items.

(** [$get], lines 731-733. *)
Definition cmd_get : M unit :=
  uris <- get_arg "uri" ;;
  for_of host uris
    (fun u =>
       root <- get_arg "root" ;;
       v <- get host (ToString u)
              {| userOrGroupPrefix := Some (negb (truthy root)); params := None;
                 opt_resolveWithFullResponse := None; opt_json := None |} ;;
       show host v).

End Commands.

(** ** Definitions the further statements are written with *)

(** The request of [get] with the options [options]. *)
Definition get_request (z : Zotero) (u : string) (options : get_options)
  : http_request :=
  let q := query (or_default (params options) (JObj true [])) in
  {| method := None;
     uri := base
            +++ (if or_default (userOrGroupPrefix options) true
                 then prefix_of (args z) else "")
            +++ u +++ (if truthy (JStr q) then "?" +++ q else "");
     req_headers := headers z; body := JUndefined; encoding := JNull;
     json := or_default (opt_json options) true;
     resolveWithFullResponse :=
       or_default (opt_resolveWithFullResponse options) false |}.

(** The request of [get] for a path outside the libraries, and for a path
    in the library, without parameters. *)
Definition unscoped_request (z : Zotero) (path : string) : http_request :=
  {| method := None; uri := base +++ path; req_headers := headers z;
     body := JUndefined; encoding := JNull; json := true;
     resolveWithFullResponse := false |}.

Definition scoped_request (z : Zotero) (path : string) : http_request :=
  {| method := None; uri := base +++ prefix_of (args z) +++ path;
     req_headers := headers z;
     body := JUndefined; encoding := JNull; json := true;
     resolveWithFullResponse := false |}.

(** The request of [post], [put], [patch] and [delete], with the headers
    [h]. *)
Definition write_request (z : Zotero) (verb path : string) (h : props)
  (data : jsval) : http_request :=
  {| method := Some verb; uri := base +++ prefix_of (args z) +++ path;
     req_headers := h; body := data; encoding := JUndefined; json := false;
     resolveWithFullResponse := false |}.

(** What a method that logs its verb and makes the request [r] returns and
    records. *)
Definition answered (host : Host) (verb : string) (r : http_request)
  (st : state) : result jsval * state :=
  (match respond host (List.length (requests (trace st))) r with
   | Resolve v => Ok v
   | Reject e => Throw e
   end,
   {| this := this st;
      trace := trace st ++ logged (this st) verb (uri r) ++ [EvRequest r] |}).

(** Resolved arguments with the user id 0, which stands for the owner of
    the key. *)
Definition owner_of_key : jsval :=
  JObj true [ ("api_key", JStr "P9NiFoyLeZu2bZNv"); ("user_id", JNum 0);
              ("group_id", JNull); ("indent", JNull); ("out", JNull);
              ("verbose", JBool false) ].

(** [breaks host h n chunk rest e]: after the response [chunk], and [n]
    requests, the remote API serves the pages [rest] one after the other,
    each at the next link of the page before it, and rejects the request of
    the page after them with [e]. *)
Fixpoint breaks (host : Host) (h : props) (n : nat) (chunk : jsval)
  (rest : list jsval) (e : jsval) : Prop :=
  match rest with
  | [] =>
      exists u,
        next_uri host chunk = Some u
        /\ respond host n (page_request h u) = Reject e
  | p :: rest' =>
      exists u,
        next_uri host chunk = Some u
        /\ respond host n (page_request h u) = Resolve p
        /\ is_page p
        /\ breaks host h (S n) p rest' e
  end.

(** The remote API serves the pages [pages] to [all u params] called in the
    state [st], and rejects the request after them with [e]. *)
Definition fails (host : Host) (st : state) (u : string) (params : jsval)
  (pages : list jsval) (e : jsval) : Prop :=
  let n := List.length (requests (trace st)) in
  match pages with
  | [] => respond host n (first_request (this st) u params) = Reject e
  | p :: rest =>
      respond host n (first_request (this st) u params) = Resolve p
      /\ is_page p
      /\ breaks host (headers (this st)) (S n) p rest e
  end.

(** A remote API that serves the first two of three pages and is then out
    of reach. *)
Definition two_pages_then_refused : Host :=
  machine written
    (fun n _ =>
       match n with
       | 0%nat => Resolve plain1
       | 1%nat => Resolve page2
       | _ => Reject refused
       end).

(** An item of the library, in the collection [COLL0001]. *)
Definition item_record : jsval :=
  JObj true [ ("key", JStr "ABCD2345"); ("version", JNum 7);
              ("data", JObj true [("collections", JArr [JStr "COLL0001"])]) ].

(** A remote API that answers every read with that item, accepts what is
    posted and rejects every other write with a conflict. *)
Definition library : Host :=
  machine written
    (fun _ r =>
       match method r with
       | None => Resolve item_record
       | Some verb => if verb =? "POST" then Resolve (JStr "{}") else Reject conflict
       end).

(** The object of a user library with the arguments [more] of a command. *)
Definition in_library (more : props) : state :=
  {| this := configured (JObj true [])
               (JObj true ([ ("api_key", JStr "P9NiFoyLeZu2bZNv");
                             ("user_id", JNum 5); ("group_id", JNull);
                             ("indent", JNum 2); ("out", JNull);
                             ("verbose", JBool false) ] ++ more));
     trace := [] |}.

(** A file system with no file, and one with the file [item.json]. *)
Definition no_such_file : jsval :=
  JErr "Error" "ENOENT: no such file or directory" "".

Definition no_files : string -> jsval + jsval := fun _ => inl no_such_file.

Definition one_file : string -> jsval + jsval :=
  fun p => if p =? "item.json" then inr (JStr "{}") else inl no_such_file.

(** The lines of the error stream. *)
Definition is_stderr (e : event) : bool :=
  match e with EvStderr _ => true | _ => false end.

(** The object of a user library with [--verbose]. *)
Definition verbose_library : state :=
  {| this := configured (JObj true [])
               (JObj true [ ("api_key", JStr "P9NiFoyLeZu2bZNv");
                            ("user_id", JNum 5); ("group_id", JNull);
                            ("indent", JNum 2); ("out", JNull);
                            ("verbose", JBool true) ]);
     trace := [] |}.

(** A configuration file that holds the API key, and an environment whose
    [ZOTERO_API_KEY] is empty. *)
Definition file_with_key : jsval :=
  JObj false [ ("api-key", JStr "P9NiFoyLeZu2bZNv"); ("user-id", JNum 5) ].

Definition empty_key_env : environment := [ ("ZOTERO_API_KEY", "") ].

(** [zotero-cli key] with that file and that environment. *)
Definition key_from_file (host : Host) : Invocation :=
  {| actions := key_actions; options := global_actions;
     argv := [ ("command", "key") ];
     file := file_with_key; env := empty_key_env;
     handler := cmd_key host |}.

(** * Theorems *)

(** ** [parseInt] on base-10 numerals *)

Lemma is_digit_value (c : ascii) :
  is_digit c = true ->
  digit_value c = Some (code c - 48)%Z /\ (0 <= code c - 48 < 10)%Z.
Proof.
  unfold is_digit, digit_value. intros H. rewrite H.
  apply andb_true_iff in H. destruct H as [H1 H2].
  apply Z.leb_le in H1. apply Z.leb_le in H2. split; [reflexivity | lia].
Qed.

(** A letter is a digit of a radix above 10 only. *)
Lemma not_digit_stops (c : ascii) (acc : option Z) (r : string) :
  is_digit c = false ->
  read_digits 10 (String c r) acc = acc.
Proof.
  unfold is_digit. intros H. cbn [read_digits]. unfold digit_value.
  rewrite H.
  destruct ((97 <=? code c) && (code c <=? 122))%Z eqn:E1.
  - apply andb_true_iff in E1. destruct E1 as [E1 _]. apply Z.leb_le in E1.
    replace (code c - 87 <? 10)%Z with false; [reflexivity|].
    symmetry. apply Z.ltb_ge. lia.
  - destruct ((65 <=? code c) && (code c <=? 90))%Z eqn:E2; [|reflexivity].
    apply andb_true_iff in E2. destruct E2 as [E2 _]. apply Z.leb_le in E2.
    replace (code c - 55 <? 10)%Z with false; [reflexivity|].
    symmetry. apply Z.ltb_ge. lia.
Qed.

Lemma ends_numeral_stops (t : string) (acc : option Z) :
  ends_numeral t = true -> read_digits 10 t acc = acc.
Proof.
  destruct t as [|c r]; [reflexivity|]. cbn [ends_numeral]. intros H.
  apply andb_true_iff in H. destruct H as [H _].
  apply andb_true_iff in H. destruct H as [H _].
  apply negb_true_iff in H. now apply not_digit_stops.
Qed.

Lemma read_digits_value (s t : string) (a : Z) :
  all_digits s = true -> ends_numeral t = true ->
  read_digits 10 (s +++ t) (Some a) = Some (digits_value s a).
Proof.
  revert a. induction s as [|c r IH]; intros a Hs Ht.
  - cbn. now apply ends_numeral_stops.
  - cbn [all_digits] in Hs. apply andb_true_iff in Hs. destruct Hs as [Hc Hr].
    destruct (is_digit_value c Hc) as [Hv Hb].
    cbn [String.append read_digits digits_value]. rewrite Hv.
    replace (code c - 48 <? 10)%Z with true by (symmetry; apply Z.ltb_lt; lia).
    now apply IH.
Qed.

Lemma read_digits_numeral (s t : string) :
  nonempty s = true -> all_digits s = true -> ends_numeral t = true ->
  read_digits 10 (s +++ t) None = Some (digits_value s 0).
Proof.
  destruct s as [|c r]; [discriminate|]. intros _ Hs Ht.
  cbn [all_digits] in Hs. apply andb_true_iff in Hs. destruct Hs as [Hc Hr].
  destruct (is_digit_value c Hc) as [Hv Hb].
  cbn [String.append read_digits digits_value]. rewrite Hv.
  replace (code c - 48 <? 10)%Z with true by (symmetry; apply Z.ltb_lt; lia).
  now apply read_digits_value.
Qed.

Lemma digit_not_white (c : ascii) : is_digit c = true -> is_white c = false.
Proof.
  unfold is_digit, is_white. cbv zeta. intros H.
  apply andb_true_iff in H. destruct H as [H1 H2].
  apply Z.leb_le in H1. apply Z.leb_le in H2.
  repeat (apply orb_false_iff; split).
  - apply andb_false_iff. right. apply Z.leb_gt. lia.
  - apply Z.eqb_neq. lia.
  - apply Z.eqb_neq. lia.
Qed.

Lemma digit_not_char (c x : ascii) :
  is_digit c = true -> is_digit x = false -> (c =? x)%char = false.
Proof.
  intros Hc Hx. destruct (Ascii.eqb_spec c x); [congruence | reflexivity].
Qed.

(** A string of digits, followed by what ends a numeral, has no hexadecimal
    prefix. *)
Lemma strip_radix_decimal (s t : string) :
  nonempty s = true -> all_digits s = true -> ends_numeral t = true ->
  strip_radix (s +++ t) = (10%Z, s +++ t).
Proof.
  destruct s as [|c r]; [discriminate|]. intros _ Hs Ht.
  cbn [all_digits] in Hs. apply andb_true_iff in Hs. destruct Hs as [Hc Hr].
  cbn [String.append]. unfold strip_radix.
  destruct (r +++ t) as [|x r'] eqn:E; [reflexivity|].
  assert (Hx : ((x =? "x")%char || (x =? "X")%char) = false).
  { destruct r as [|y r2].
    - cbn in E. subst t. cbn [ends_numeral] in Ht.
      apply andb_true_iff in Ht. destruct Ht as [Ht H2].
      apply andb_true_iff in Ht. destruct Ht as [_ H1].
      apply negb_true_iff in H1. apply negb_true_iff in H2.
      now rewrite H1, H2.
    - cbn in E. injection E as -> _. cbn [all_digits] in Hr.
      apply andb_true_iff in Hr. destruct Hr as [Hy _].
      rewrite (digit_not_char x "x" Hy eq_refl).
      now rewrite (digit_not_char x "X" Hy eq_refl). }
  rewrite Hx. now rewrite andb_false_r.
Qed.

(** The integers up to 2^53 in magnitude are doubles. *)
Lemma to_double_exact (n : Z) :
  (Z.abs n <= 2 ^ 53)%Z -> to_double n = Finite n.
Proof.
  intros H. unfold to_double. cbv zeta.
  now replace (Z.abs n <=? 2 ^ 53)%Z with true by (symmetry; now apply Z.leb_le).
Qed.

(** [parseInt] reads a base-10 numeral as the integer it denotes, whatever
    follows the numeral, and returns the double nearest to it. *)
Lemma parseInt_numeral (s t : string) :
  decimal_numeral s = true -> ends_numeral t = true ->
  parseInt_string (s +++ t) = Some (to_double (decimal_value s)).
Proof.
  destruct s as [|c r]; [discriminate|].
  unfold decimal_numeral, decimal_value, parseInt_string. intros Hs Ht.
  destruct ((c =? "-")%char || (c =? "+")%char) eqn:Hsign.
  - apply andb_true_iff in Hs. destruct Hs as [Hne Hr].
    assert (Hw : is_white c = false).
    { apply orb_true_iff in Hsign.
      destruct Hsign as [H|H]; apply Ascii.eqb_eq in H; subst c; reflexivity. }
    cbn [String.append trim_start]. rewrite Hw. unfold strip_sign.
    destruct (c =? "-")%char eqn:Hm.
    + rewrite (strip_radix_decimal r t Hne Hr Ht).
      rewrite (read_digits_numeral r t Hne Hr Ht).
      cbn [option_map]. repeat f_equal; try lia.
    + cbn in Hsign. rewrite Hsign.
      rewrite (strip_radix_decimal r t Hne Hr Ht).
      rewrite (read_digits_numeral r t Hne Hr Ht).
      cbn [option_map]. repeat f_equal; try lia.
  - apply orb_false_iff in Hsign. destruct Hsign as [Hm Hp].
    pose proof Hs as Hs'. cbn [all_digits] in Hs'.
    apply andb_true_iff in Hs'. destruct Hs' as [Hc _].
    cbn [String.append trim_start]. rewrite (digit_not_white c Hc).
    unfold strip_sign. rewrite Hm, Hp.
    change (String c (r +++ t)) with (String c r +++ t).
    rewrite (strip_radix_decimal (String c r) t eq_refl Hs Ht).
    rewrite (read_digits_numeral (String c r) t eq_refl Hs Ht).
    cbn [option_map]. repeat f_equal; try lia.
Qed.

(** *** White space, signs and the hexadecimal prefix *)
















(** ** Coercion of resolved values *)




(** ** Precedence of the sources *)






(** When the command line gives the option, its value is the result,
    whatever the other three sources hold. *)
Lemma explicit_value_wins (host : Host) (c : jsval) (env : environment)
  (o : Action) (a : jsval) (d : string) :
  dest o = Some d ->
  is_null (get_prop a d) = false ->
  resolve_option host c env o a = inr a.
Proof.
  intros Hd Hn. unfold resolve_option. rewrite Hd, Hn.
  destruct (negb (truthy (JStr d))); [reflexivity|].
  now destruct (mem_string d ["help"; "config"]).
Qed.

(** ** Flags *)

(** C9, at the failing inputs.  With [ZOTERO_CLI_VERBOSE=yes] in the
    environment and no [--verbose] on the command line, the parser has
    stored [false] for the flag, which is not [null]: the loop skips the
    option at line 104, [verbose] is [false] when the command runs and no
    request is logged.  With [ZOTERO_CLI_VERBOSE=maybe] no error is raised:
    the process ends with the code 0.  This does not depend on the parser
    of the example: whatever the sources hold, the loop leaves a flag that
    is [true] or [false] as it is; and the action of the flag has no member
    [action], so that the test of line 147 is false for it and the loop
    would store any string as it is, [off] and [maybe] included. *)
Lemma flag_of_environment_ignored :
  lookup_env (env (flag_from_environment api "yes")) "verbose" = JStr "yes"
  /\ action (storeTrue "verbose") = None
  /\ (exists a a',
         parseArgs api (actions (flag_from_environment api "yes"))
           (argv (flag_from_environment api "yes")) = inr a
         /\ get_prop a "verbose" = JBool false
         /\ configure api global_actions (overwrite_scope a (JObj false []))
              (env (flag_from_environment api "yes")) a = inr a'
         /\ get_prop a' "verbose" = JBool false)
  /\ fst (main api (flag_from_environment api "yes")) = Some (ExitCode 0)
  /\ filter is_stderr (trace (snd (main api (flag_from_environment api "yes"))))
     = []
  /\ List.length (requests (trace (snd (main api (flag_from_environment api "yes")))))
     = 1%nat
  /\ fst (main api (flag_from_environment api "maybe")) = Some (ExitCode 0)
  /\ (forall (host : Host) c env a b,
         get_prop a "verbose" = JBool b ->
         resolve_option host c env (storeTrue "verbose") a = inr a)
  /\ (forall (host : Host) raw,
         coerce host (storeTrue "verbose") "verbose" (JStr raw) = inr (JStr raw)).
Proof.
  split; [reflexivity|]. split; [reflexivity|]. split.
  { eexists _, _. split; [reflexivity|]. split; [reflexivity|].
    split; reflexivity. }
  do 4 (split; [reflexivity|]). split.
  - intros host c env a b Hb.
    apply (explicit_value_wins host c env (storeTrue "verbose") a "verbose" eq_refl).
    now rewrite Hb.
  - reflexivity.
Qed.

(** ** The loop of resolution *)

Lemma assoc_put_key_same (k : string) (v : jsval) (l : props) :
  assoc k (put_key k v l) = Some v.
Proof.
  induction l as [|[k' v'] r IH]; cbn [put_key assoc].
  - now rewrite String.eqb_refl.
  - destruct (k =? k') eqn:E; cbn [assoc]; rewrite ?String.eqb_refl, ?E; auto.
Qed.

Lemma assoc_put_key_other (k d : string) (v : jsval) (l : props) :
  (d =? k) = false -> assoc k (put_key d v l) = assoc k l.
Proof.
  intros Hdk. induction l as [|[k' v'] r IH]; cbn [put_key assoc].
  - rewrite String.eqb_sym, Hdk. reflexivity.
  - destruct (d =? k') eqn:E.
    + apply String.eqb_eq in E. subst k'. cbn [assoc].
      rewrite String.eqb_sym, Hdk. reflexivity.
    + cbn [assoc]. destruct (k =? k'); [reflexivity | exact IH].
Qed.

Lemma get_prop_set_prop_other (a : jsval) (k d : string) (v : jsval) :
  (d =? k) = false -> get_prop (set_prop a d v) k = get_prop a k.
Proof.
  intros Hdk. destruct a; try reflexivity. cbn [set_prop get_prop].
  now rewrite assoc_put_key_other.
Qed.

(** An iteration of the loop either leaves the arguments as they are or
    sets an option that was [null] and has a raw value. *)
Lemma resolve_option_cases (host : Host) (c : jsval) (env : environment)
  (o : Action) (a a' : jsval) :
  resolve_option host c env o a = inr a' ->
  a' = a
  \/ exists d v,
       a' = set_prop a d v
       /\ is_null (get_prop a d) = true
       /\ mem_string d ["help"; "config"] = false
       /\ is_undefined (raw_value c env a d) = false.
Proof.
  unfold resolve_option. destruct (dest o) as [d|]; [|intros [= <-]; now left].
  destruct (negb (truthy (JStr d))); [intros [= <-]; now left|].
  destruct (mem_string d ["help"; "config"]) eqn:Hm; [intros [= <-]; now left|].
  destruct (is_null (get_prop a d)) eqn:Hn; cbn [negb]; [|intros [= <-]; now left].
  destruct (is_undefined (raw_value c env a d)) eqn:Hu; [intros [= <-]; now left|].
  destruct (coerce host o d (raw_value c env a d)) as [m|v]; [discriminate|].
  intros [= <-]. right. now exists d, v.
Qed.



Lemma is_null_eqb (a : jsval) (d k : string) :
  is_null (get_prop a d) = true -> is_null (get_prop a k) = false ->
  (d =? k) = false.
Proof.
  intros Hd Hk. destruct (String.eqb_spec d k); [subst; congruence | reflexivity].
Qed.


(** ** Required options and the API key *)





(** ** The library scope *)

(** C4, amended.  When the loop over the options has resolved the arguments
    [a']: without an API key the process ends with [no API key provided],
    whatever the user id and the group id are; with an API key, if the user
    id and the group id are both set or both unset the process ends with
    [You must provide exactly one of --user-id or --group-id] in the state it
    started in, before any request and before the command is called, and if
    exactly one of them is set the configuration is accepted and [run] goes
    on to the command. *)
Theorem scope_conflict (host : Host) (inv : Invocation) (a a' : jsval) :
  parseArgs host (actions inv) (argv inv) = inr a ->
  resolve_options host (overwrite_scope a (file inv)) (env inv) (options inv) a
  = inr a' ->
  (truthy (get_prop a' "api_key") = false ->
   main host inv = (Some (ParserError "no API key provided"), start))
  /\ (truthy (get_prop a' "api_key") = true ->
      (is_null (get_prop a' "user_id") = is_null (get_prop a' "group_id") ->
       main host inv = (Some (ParserError scope_message), start))
      /\ (is_null (get_prop a' "user_id") <> is_null (get_prop a' "group_id") ->
          configure host (options inv) (overwrite_scope a (file inv)) (env inv) a
          = inr a'
          /\ main host inv
             = finish ((prepare host (overwrite_scope a (file inv)) a' ;;;
                        call_command host (handler inv)) start))).
Proof.
  intros Ha Hr.
  assert (Hc : configure host (options inv) (overwrite_scope a (file inv)) (env inv) a
               = match check_arguments a' with
                 | Some message => inl message
                 | None => inr a'
                 end).
  { unfold configure. now rewrite Hr. }
  unfold main, run. rewrite Ha, Hc. unfold check_arguments.
  split; intros Hk; rewrite Hk; cbn [negb]; [reflexivity|].
  split; intros Hn.
  - rewrite Hn.
    destruct (is_null (get_prop a' "group_id")); reflexivity.
  - destruct (is_null (get_prop a' "user_id")), (is_null (get_prop a' "group_id"));
      try congruence; now split.
Qed.

(** The theorem at [key] with an API key and no library, and with the user
    library of the command line and the group library of the environment. *)
Lemma scope_conflict_witness :
  main offline (key_without_library offline)
  = (Some (ParserError scope_message), start)
  /\ main offline (key_with_two_libraries offline)
     = (Some (ParserError scope_message), start).
Proof.
  split.
  - refine (proj1 (proj2 (scope_conflict offline (key_without_library offline) _ _
                            eq_refl eq_refl) eq_refl) eq_refl).
  - refine (proj1 (proj2 (scope_conflict offline (key_with_two_libraries offline) _ _
                            eq_refl eq_refl) eq_refl) eq_refl).
Defined.

(** C4 as stated fails: [key] with nothing configured resolves neither a
    user id nor a group id, and the process ends with the error of the
    missing API key, not with the one of the scope. *)
Lemma missing_key_reported_first :
  (exists a',
      resolve_options offline (JObj false []) [] global_actions
        (JObj true [ ("api_key", JNull); ("config", JNull);
                     ("user_id", JNull); ("group_id", JNull); ("indent", JNull);
                     ("out", JNull); ("verbose", JBool false); ("command", JStr "key") ])
      = inr a'
      /\ is_null (get_prop a' "user_id") = true
      /\ is_null (get_prop a' "group_id") = true)
  /\ parseArgs offline (actions (bare_key offline)) (argv (bare_key offline))
     = inr (JObj true [ ("api_key", JNull); ("config", JNull);
                        ("user_id", JNull); ("group_id", JNull); ("indent", JNull);
                        ("out", JNull); ("verbose", JBool false); ("command", JStr "key") ])
  /\ main offline (bare_key offline)
     = (Some (ParserError "no API key provided"), start).
Proof.
  split; [eexists; repeat split; reflexivity|]. split; reflexivity.
Qed.

(** ** The client *)

Lemma state_eta (st : state) : {| this := this st; trace := trace st |} = st.
Proof. now destruct st. Qed.

Lemma requests_app (t1 t2 : list event) :
  requests (t1 ++ t2) = requests t1 ++ requests t2.
Proof. apply filter_app. Qed.

Lemma requests_cons (r : http_request) (t : list event) :
  requests (EvRequest r :: t) = EvRequest r :: requests t.
Proof. reflexivity. Qed.

Lemma requests_logged (z : Zotero) (verb u : string) :
  requests (logged z verb u) = [].
Proof. unfold logged. now destruct (truthy _). Qed.

Lemma member_value {host : Host} (o : jsval) (k : string) :
  is_value o = true -> member host o k = ret (get_prop o k).
Proof. destruct o; (discriminate || reflexivity). Qed.

Lemma versioned_headers_precondition (h : props) (version : jsval) :
  assoc "If-Unmodified-Since-Version" h = None ->
  assoc "If-Unmodified-Since-Version" (versioned_headers h version)
  = if is_undefined version then None else Some version.
Proof.
  intros Hh. unfold versioned_headers, json_headers, spread. cbn [fold_left fst snd].
  destruct (is_undefined version); cbn [negb].
  - now rewrite assoc_put_key_other.
  - apply assoc_put_key_same.
Qed.

Section Client.

Context (host : Host).

Lemma log_request_step (verb u : string) (st : state) :
  log_request verb u st
  = (Ok tt, {| this := this st; trace := trace st ++ logged (this st) verb u |}).
Proof.
  unfold log_request, logged, get_arg, bind, get_this, ret.
  destruct (truthy (get_prop (args (this st)) "verbose")).
  - reflexivity.
  - now rewrite app_nil_r, state_eta.
Qed.

Lemma request_resolve (r : http_request) (v : jsval) (st : state) :
  respond host (List.length (requests (trace st))) r = Resolve v ->
  request host r st
  = (Ok v, {| this := this st; trace := trace st ++ [EvRequest r] |}).
Proof. unfold request. now intros ->. Qed.

(** What a request made after the log line of its verb returns and
    records: the answer of the remote API as it is, after one request. *)
Lemma logged_request (verb : string) (r : http_request) (st : state) :
  (log_request verb (uri r) ;;; request host r) st
  = (match respond host (List.length (requests (trace st))) r with
     | Resolve v => Ok v
     | Reject e => Throw e
     end,
     {| this := this st;
        trace := trace st ++ logged (this st) verb (uri r) ++ [EvRequest r] |}).
Proof.
  unfold bind. rewrite log_request_step. unfold request. cbn [this trace].
  rewrite requests_app, requests_logged, app_nil_r, <- app_assoc.
  now destruct (respond host _ r).
Qed.

(** C6.  [patch] and [delete] make one request, of method PATCH or DELETE,
    and no other: its header [If-Unmodified-Since-Version] is the version
    when one is supplied and is absent when none is; the answer of the
    remote API is returned as it is, so that a rejection, such as the one of
    a version that no longer matches, is thrown to the caller, after that
    one request. *)
Theorem version_precondition (u : string) (data version : jsval) (st : state) :
  assoc "If-Unmodified-Since-Version" (headers (this st)) = None ->
  (exists r,
      method r = Some "PATCH"
      /\ assoc "If-Unmodified-Since-Version" (req_headers r)
         = (if is_undefined version then None else Some version)
      /\ patch host u data version st
         = (match respond host (List.length (requests (trace st))) r with
            | Resolve v => Ok v
            | Reject e => Throw e
            end,
            {| this := this st;
               trace := trace st ++ logged (this st) "PATCH" (uri r)
                                 ++ [EvRequest r] |}))
  /\ (exists r,
         method r = Some "DELETE"
         /\ assoc "If-Unmodified-Since-Version" (req_headers r)
            = (if is_undefined version then None else Some version)
         /\ delete host u version st
            = (match respond host (List.length (requests (trace st))) r with
               | Resolve v => Ok v
               | Reject e => Throw e
               end,
               {| this := this st;
                  trace := trace st ++ logged (this st) "DELETE" (uri r)
                                    ++ [EvRequest r] |})).
Proof.
  intros Hh. split.
  - eexists. split; [|split].
    3:{ unfold patch. unfold bind at 1. cbn [get_this].
        apply (logged_request "PATCH"
                 {| method := Some "PATCH";
                    uri := base +++ prefix_of (args (this st)) +++ u;
                    req_headers := versioned_headers (headers (this st)) version;
                    body := data; encoding := JUndefined; json := false;
                    resolveWithFullResponse := false |}). }
    + reflexivity.
    + cbn [req_headers]. now apply versioned_headers_precondition.
  - eexists. split; [|split].
    3:{ unfold delete. unfold bind at 1. cbn [get_this].
        apply (logged_request "DELETE"
                 {| method := Some "DELETE";
                    uri := base +++ prefix_of (args (this st)) +++ u;
                    req_headers := versioned_headers (headers (this st)) version;
                    body := JUndefined; encoding := JUndefined; json := false;
                    resolveWithFullResponse := false |}). }
    + reflexivity.
    + cbn [req_headers]. now apply versioned_headers_precondition.
Qed.

End Client.

(** The theorem at a patch of version 7 that the remote API rejects: the
    conflict is thrown after one request that carries the version. *)
Lemma version_precondition_witness :
  assoc "If-Unmodified-Since-Version" (headers (this user_library)) = None
  /\ exists r,
       method r = Some "PATCH"
       /\ assoc "If-Unmodified-Since-Version" (req_headers r) = Some (JNum 7)
       /\ patch api "/items/ABCD2345" (JStr "{}") (JNum 7) user_library
          = (Throw conflict,
             {| this := this user_library; trace := [EvRequest r] |}).
Proof.
  split; [reflexivity|].
  destruct (proj1 (version_precondition api "/items/ABCD2345" (JStr "{}") (JNum 7)
                     user_library eq_refl)) as (r & Hm & Hv & Hp).
  exists r. split; [exact Hm|]. split; [exact Hv|].
  rewrite Hp. unfold api, machine. cbn [respond]. rewrite Hm. reflexivity.
Defined.

(** *** Pagination *)

Section Pagination.

Context (host : Host).

Lemma is_page_value (chunk : jsval) : is_page chunk -> is_value chunk = true.
Proof.
  intros [[l Hl] _]. destruct chunk; try reflexivity; discriminate.
Qed.

Lemma requests_pause (chunk : jsval) : requests (pause chunk) = [].
Proof. unfold pause. now destruct (truthy (backoff_of chunk)). Qed.

Lemma pause_step (chunk : jsval) (st : state) :
  (if truthy (backoff_of chunk)
   then sleep (js_mul (parseInt (backoff_of chunk)) (Some (Finite 1000)))
   else ret tt) st
  = (Ok tt, {| this := this st; trace := trace st ++ pause chunk |}).
Proof.
  unfold pause. destruct (truthy (backoff_of chunk)).
  - reflexivity.
  - cbn [ret]. now rewrite app_nil_r, state_eta.
Qed.

Lemma next_link_page (p : jsval) (st : state) :
  is_page p ->
  next_link host p st
  = (Ok (rel_next host (get_prop (get_prop p "headers") "link")), st).
Proof.
  intros Hp. unfold next_link.
  rewrite (member_value p "headers") by now apply is_page_value.
  unfold bind at 1. cbn [ret].
  destruct Hp as [_ Hh]. now rewrite (member_value _ "link") by exact Hh.
Qed.

(** The loop of [all], started after the response [chunk] with the records
    [data] gathered so far: it follows the pages to the last one, given as
    much fuel as there are pages left. *)
Lemma all_loop_follows (rest : list jsval) :
  forall (fuel : nat) (chunk : jsval) (data : list jsval) (st : state),
    (List.length rest <= fuel)%nat ->
    is_page chunk ->
    follows host (headers (this st)) (List.length (requests (trace st))) chunk rest ->
    all_loop host fuel chunk (JArr data)
      (rel_next host (get_prop (get_prop chunk "headers") "link")) st
    = (Ok (JArr (data ++ flat_map records_of rest)),
       {| this := this st;
          trace := trace st ++ schedule host (headers (this st)) chunk rest |}).
Proof.
  induction rest as [|p rest IH]; intros fuel chunk data st Hfuel Hpage Hf.
  - cbn [follows] in Hf. unfold next_uri in Hf. cbn [flat_map schedule].
    rewrite !app_nil_r, state_eta.
    destruct (rel_next host _) as [|u l].
    + now destruct fuel.
    + destruct (truthy (JStr u)) eqn:Hu; [discriminate|].
      destruct fuel; cbn [all_loop]; now rewrite Hu.
  - cbn [follows] in Hf. destruct Hf as (u & Hnext & Hresp & Hp & Hf).
    cbn [schedule]. rewrite Hnext. unfold next_uri in Hnext.
    destruct (rel_next host _) as [|u' l]; [discriminate|].
    destruct (truthy (JStr u')) eqn:Hu; [|discriminate].
    injection Hnext as ->.
    destruct fuel as [|fuel]; [cbn in Hfuel; lia|].
    cbn [all_loop]. rewrite Hu.
    destruct Hpage as [Hbody Hh].
    rewrite (member_value chunk "headers")
      by (apply is_page_value; now split).
    unfold bind at 1. cbn [ret].
    rewrite (member_value _ "backoff") by exact Hh.
    unfold bind at 1. cbn [ret].
    unfold bind at 1. fold (backoff_of chunk). rewrite pause_step.
    unfold bind at 1. cbn [get_this this].
    unfold bind at 1.
    rewrite (request_resolve host _ p).
    2:{ cbn [trace]. rewrite requests_app, requests_pause, app_nil_r. exact Hresp. }
    cbn [this trace].
    unfold bind at 1. cbn [member ret].
    unfold bind at 1.
    rewrite (member_value p "body") by now apply is_page_value.
    cbn [ret]. destruct (Hp) as [[recs Hrecs] _].
    rewrite Hrecs. cbn [concat]. unfold bind at 1. cbn [ret].
    unfold bind at 1. rewrite (next_link_page p _ Hp).
    rewrite IH.
    + assert (Hr : records_of p = recs) by (unfold records_of; now rewrite Hrecs).
      cbn [this trace flat_map]. rewrite Hr, <- !app_assoc. reflexivity.
    + cbn in Hfuel. lia.
    + exact Hp.
    + cbn [this trace]. rewrite !requests_app, requests_pause, app_nil_r.
      cbn. rewrite length_app. cbn. rewrite Nat.add_1_r. exact Hf.
Qed.

(** [all] on the pages the remote API serves: the records of all the pages
    in order, after the first request and the schedule of the loop. *)
Lemma all_serves (st : state) (u : string) (ps p : jsval)
  (rest : list jsval) (fuel : nat) :
  serves host st u ps p rest ->
  (List.length rest <= fuel)%nat ->
  all host fuel u ps st
  = (Ok (JArr (flat_map records_of (p :: rest))),
     {| this := this st;
        trace := trace st
                 ++ logged (this st) "GET" (uri (first_request (this st) u ps))
                 ++ EvRequest (first_request (this st) u ps)
                    :: schedule host (headers (this st)) p rest |}).
Proof.
  intros (Hresp & Hp & Hf) Hfuel. unfold all, get.
  cbn [userOrGroupPrefix params opt_json opt_resolveWithFullResponse or_default].
  unfold bind at 1. unfold bind at 1. cbn [get_this].
  unfold bind at 1. rewrite log_request_step.
  rewrite (request_resolve host _ p).
  2:{ cbn [trace this]. rewrite requests_app, requests_logged, app_nil_r.
      exact Hresp. }
  cbn [this trace].
  rewrite (member_value p "body") by now apply is_page_value.
  unfold bind at 1. cbn [ret].
  unfold bind at 1. rewrite (next_link_page p _ Hp).
  destruct (Hp) as [[recs Hrecs] _]. rewrite Hrecs.
  rewrite (all_loop_follows rest); [| exact Hfuel | exact Hp | ].
  - assert (Hr : records_of p = recs) by (unfold records_of; now rewrite Hrecs).
    cbn [this trace flat_map first_request uri]. rewrite Hr, <- !app_assoc.
    reflexivity.
  - cbn [this trace]. rewrite !requests_app, requests_logged, app_nil_r.
    cbn. rewrite length_app. cbn. rewrite Nat.add_1_r. exact Hf.
Qed.

Lemma requests_schedule (h : props) (rest : list jsval) :
  forall (n : nat) (chunk : jsval),
    follows host h n chunk rest ->
    List.length (requests (schedule host h chunk rest)) = List.length rest.
Proof.
  induction rest as [|p rest IH]; intros n chunk Hf; [reflexivity|].
  cbn [follows] in Hf. destruct Hf as (u & Hnext & _ & _ & Hf).
  cbn [schedule]. rewrite Hnext, requests_app, requests_pause.
  cbn. f_equal. now apply (IH (S n)).
Qed.

Lemma schedule_requests_only (h : props) (rest : list jsval) :
  forall (n : nat) (chunk : jsval),
    follows host h n chunk rest ->
    (forall q, In q (chunk :: rest) -> truthy (backoff_of q) = false) ->
    forall e, In e (schedule host h chunk rest) -> is_request e = true.
Proof.
  induction rest as [|p rest IH]; intros n chunk Hf Hb e; [contradiction|].
  cbn [follows] in Hf. destruct Hf as (u & Hnext & _ & _ & Hf).
  cbn [schedule]. rewrite Hnext. unfold pause.
  rewrite (Hb chunk (or_introl eq_refl)). cbn [app].
  intros [<-|Hin]; [reflexivity|].
  apply (IH (S n) p Hf); [|exact Hin].
  intros q Hq. apply Hb. now right.
Qed.

(** C2.  When the remote API serves the pages [p :: rest], each at the next
    link of the page before it and the last without a next link, and no page
    has a backoff header, [all] returns the records of all the pages in the
    order of the pages, makes exactly as many requests as there are pages,
    and sleeps at no point; the fuel of the loop need only cover the pages
    that follow the first. *)
Theorem all_concatenates_pages (st : state) (u : string) (ps p : jsval)
  (rest : list jsval) (fuel : nat) :
  serves host st u ps p rest ->
  (forall q, In q (p :: rest) -> truthy (backoff_of q) = false) ->
  (List.length rest <= fuel)%nat ->
  exists st',
    all host fuel u ps st = (Ok (JArr (flat_map records_of (p :: rest))), st')
    /\ List.length (requests (trace st'))
       = (List.length (requests (trace st)) + List.length (p :: rest))%nat
    /\ forall msecs, In (EvSleep msecs) (trace st') -> In (EvSleep msecs) (trace st).
Proof.
  intros Hs Hb Hfuel. eexists. split; [now apply all_serves|].
  destruct Hs as (_ & _ & Hf). cbn [trace]. split.
  - rewrite !requests_app, requests_logged, requests_cons, length_app.
    cbn [app List.length]. rewrite (requests_schedule _ _ _ _ Hf). lia.
  - intros msecs Hin. apply in_app_or in Hin. destruct Hin as [Hin|Hin]; [exact Hin|].
    apply in_app_or in Hin. destruct Hin as [Hin|[Hin|Hin]].
    + unfold logged in Hin. destruct (truthy _); [|contradiction].
      destruct Hin as [Hin|[]]; discriminate.
    + discriminate.
    + now apply (schedule_requests_only _ _ _ _ Hf Hb) in Hin.
Qed.

(** A backoff header that is a base-10 numeral is not empty, and [parseInt]
    reads the integer it denotes. *)
Lemma numeral_header (s : string) :
  decimal_numeral s = true ->
  (if truthy (JStr s)
   then [EvSleep (js_mul (parseInt (JStr s)) (Some (Finite 1000)))]
   else [])
  = [EvSleep (js_mul (Some (to_double (decimal_value s))) (Some (Finite 1000)))].
Proof.
  intros Hs. assert (Hne : truthy (JStr s) = true) by now destruct s.
  rewrite Hne. unfold parseInt. cbn [ToString].
  assert (He : s +++ "" = s).
  { clear. induction s as [|c s IH]; [reflexivity|]. cbn. now rewrite IH. }
  now rewrite <- (parseInt_numeral s "" Hs eq_refl), He.
Qed.

(** The product is exact as long as it is at most [2 ^ 53] in absolute
    value. *)
Lemma numeral_product (k : Z) :
  (Z.abs (k * 1000) <= 2 ^ 53)%Z ->
  js_mul (Some (to_double k)) (Some (Finite 1000)) = Some (Finite (k * 1000)).
Proof.
  intros Hk. rewrite (to_double_exact k) by lia.
  cbn [js_mul]. now rewrite to_double_exact.
Qed.

(** The request whose response is the page of index [i] is followed by the
    pause of that page and then by the request of the next page. *)
Lemma schedule_nth (h : props) (rest : list jsval) :
  forall (p : jsval) (r : http_request) (n i : nat) (chunk next_page : jsval),
    respond host n r = Resolve p ->
    follows host h (S n) p rest ->
    nth_error (p :: rest) i = Some chunk ->
    nth_error (p :: rest) (S i) = Some next_page ->
    exists u r' before after,
      next_uri host chunk = Some u
      /\ EvRequest r :: schedule host h p rest
         = before ++ EvRequest r' :: pause chunk
                  ++ EvRequest (page_request h u) :: after
      /\ List.length (requests before) = i
      /\ respond host (n + i) r' = Resolve chunk
      /\ respond host (S (n + i)) (page_request h u) = Resolve next_page.
Proof.
  induction rest as [|p1 rest IH]; intros p r n i chunk next_page Hr Hf Hi Hn.
  - destruct i; discriminate.
  - cbn [follows] in Hf. destruct Hf as (u & Hnext & Hresp & Hp & Hf).
    destruct i as [|i].
    + injection Hi as <-. injection Hn as <-.
      exists u, r, [], (schedule host h p1 rest).
      cbn [schedule]. rewrite Hnext, Nat.add_0_r. now repeat split.
    + destruct (IH p1 (page_request h u) (S n) i chunk next_page Hresp Hf Hi Hn)
        as (u' & r' & before & after & Hu' & Heq & Hlen & Hr' & Hq).
      exists u', r', (EvRequest r :: pause p ++ before), after.
      split; [exact Hu'|]. split.
      * cbn [schedule]. rewrite Hnext, Heq. cbn [app].
        now rewrite <- app_assoc.
      * split.
        -- change (EvRequest r :: pause p ++ before)
             with ([EvRequest r] ++ pause p ++ before).
           rewrite !requests_app, requests_pause. cbn. now f_equal.
        -- rewrite <- plus_n_Sm. now split.
Qed.

(** C3.  In a traversal by [all], let [chunk] be the response to the
    request [r] and let it have a next link, to [next_page].  Then the
    request of the next page comes after [r] with exactly [gap] in between:
    when the backoff header of [chunk] is a base-10 numeral, of the integer
    [k], one sleep of the product of [k] and 1000 as numbers of the
    language, which is [k * 1000] milliseconds exactly when that is at most
    [2 ^ 53] in absolute value; and nothing at all when [chunk] has no
    backoff header. *)
Theorem backoff_delays_next_request (st : state) (u : string) (ps p : jsval)
  (rest : list jsval) (fuel i : nat) (chunk next_page : jsval) :
  serves host st u ps p rest ->
  (List.length rest <= fuel)%nat ->
  nth_error (p :: rest) i = Some chunk ->
  nth_error (p :: rest) (S i) = Some next_page ->
  exists next r before gap after,
    next_uri host chunk = Some next
    /\ trace (snd (all host fuel u ps st))
       = before ++ EvRequest r :: gap
                ++ EvRequest (page_request (headers (this st)) next) :: after
    /\ List.length (requests before) = (List.length (requests (trace st)) + i)%nat
    /\ respond host (List.length (requests before)) r = Resolve chunk
    /\ respond host (S (List.length (requests before)))
         (page_request (headers (this st)) next) = Resolve next_page
    /\ (forall s,
           backoff_of chunk = JStr s -> decimal_numeral s = true ->
           gap = [EvSleep (js_mul (Some (to_double (decimal_value s)))
                             (Some (Finite 1000)))]
           /\ ((Z.abs (decimal_value s * 1000) <= 2 ^ 53)%Z ->
               gap = [EvSleep (Some (Finite (decimal_value s * 1000)))]))
    /\ (backoff_of chunk = JUndefined -> gap = []).
Proof.
  intros Hs Hfuel Hi Hn. rewrite (all_serves st u ps p rest fuel Hs Hfuel).
  destruct Hs as (Hresp & _ & Hf).
  destruct (schedule_nth _ rest p _ _ i chunk next_page Hresp Hf Hi Hn)
    as (next & r & before & after & Hu & Heq & Hlen & Hr & Hq).
  exists next, r,
    (trace st ++ logged (this st) "GET" (uri (first_request (this st) u ps))
     ++ before),
    (pause chunk), after.
  assert (Hcount :
    List.length (requests (trace st ++ logged (this st) "GET"
                             (uri (first_request (this st) u ps)) ++ before))
    = (List.length (requests (trace st)) + i)%nat).
  { rewrite !requests_app, requests_logged, length_app. cbn. now rewrite Hlen. }
  split; [exact Hu|]. split.
  { cbn [snd trace]. rewrite Heq. now rewrite <- !app_assoc. }
  rewrite Hcount. split; [reflexivity|]. do 2 (split; [assumption|]). split.
  - intros s Hb Hs. unfold pause. rewrite Hb, (numeral_header s Hs).
    split; [reflexivity|]. intros Hk. now rewrite numeral_product.
  - intros Hb. unfold pause. now rewrite Hb.
Qed.

End Pagination.

(** The example hosts serve their three pages to [all] in a user library. *)
Lemma three_plain_pages_served :
  serves three_plain_pages user_library "/items" (JObj true []) plain1
    [page2; page3].
Proof.
  unfold serves. split; [reflexivity|]. split.
  { split; [eexists|]; reflexivity. }
  cbn [follows]. eexists. split; [reflexivity|]. split; [reflexivity|].
  split. { split; [eexists|]; reflexivity. }
  eexists. split; [reflexivity|]. split; [reflexivity|].
  split. { split; [eexists|]; reflexivity. }
  reflexivity.
Qed.

Lemma three_pages_served :
  serves three_pages user_library "/items" (JObj true []) page1 [page2; page3].
Proof.
  unfold serves. split; [reflexivity|]. split.
  { split; [eexists|]; reflexivity. }
  cbn [follows]. eexists. split; [reflexivity|]. split; [reflexivity|].
  split. { split; [eexists|]; reflexivity. }
  eexists. split; [reflexivity|]. split; [reflexivity|].
  split. { split; [eexists|]; reflexivity. }
  reflexivity.
Qed.

(** The theorem at three pages without backoff: four records, three
    requests. *)
Lemma all_concatenates_pages_witness :
  exists st',
    all three_plain_pages 2 "/items" (JObj true []) user_library
    = (Ok (JArr [JStr "A"; JStr "B"; JStr "C"; JStr "D"]), st')
    /\ List.length (requests (trace st')) = 3%nat.
Proof.
  destruct (all_concatenates_pages three_plain_pages user_library "/items"
              (JObj true []) plain1 [page2; page3] 2 three_plain_pages_served)
    as (st' & Hall & Hcount & _).
  - intros q [<-|[<-|[<-|[]]]]; reflexivity.
  - cbn. lia.
  - exists st'. split; [exact Hall | exact Hcount].
Defined.

(** The theorem at the first of three pages, whose backoff header is [3]:
    the second request comes after a sleep of 3000 milliseconds. *)
Lemma backoff_delays_next_request_witness :
  exists next r before after,
    trace (snd (all three_pages 2 "/items" (JObj true []) user_library))
    = before ++ EvRequest r :: [EvSleep (Some (Finite 3000))]
             ++ EvRequest (page_request (headers (this user_library)) next) :: after
    /\ respond three_pages (List.length (requests before)) r = Resolve page1.
Proof.
  destruct (backoff_delays_next_request three_pages user_library "/items"
              (JObj true []) page1 [page2; page3] 2 0 page1 page2
              three_pages_served)
    as (next & r & before & gap & after & _ & Htrace & _ & Hr & _ & Hgap & _);
    [cbn; lia | reflexivity | reflexivity |].
  exists next, r, before, after. split; [|exact Hr].
  rewrite Htrace. rewrite (proj2 (Hgap "3" eq_refl eq_refl)); [reflexivity|].
  vm_compute. discriminate.
Defined.

(** ** The process *)

Section Process.

Context (host : Host).

Lemma call_command_throw (handler : M unit) (ex : jsval) (st1 st2 : state) :
  handler st1 = (Throw ex, st2) ->
  truthy (get_prop (args (this st2)) "out") = false ->
  call_command host handler st1
  = (Exit (ExitCode 1),
     {| this := this st2;
        trace := trace st2 ++ [EvStdout [JStr "Command execution failed: "; ex]] |}).
Proof.
  intros Hh Hout. unfold call_command, bind at 1, try_catch. rewrite Hh.
  unfold bind at 1, print, bind at 1. cbn [get_this]. now rewrite Hout.
Qed.

Lemma call_command_ok (handler : M unit) (st1 st2 : state) :
  handler st1 = (Ok tt, st2) ->
  call_command host handler st1
  = if truthy (get_prop (args (this st2)) "out")
    then write_file host (get_prop (args (this st2)) "out") (output (this st2)) st2
    else (Ok tt, st2).
Proof.
  intros Hh. unfold call_command, bind at 1, try_catch. rewrite Hh.
  unfold get_arg, bind, get_this, ret.
  now destruct (truthy (get_prop (args (this st2)) "out")).
Qed.

(** C8, amended.  Once [parseArgs] has returned: a configuration that does
    not resolve ends the process through the error routine of the parser,
    with its message, in the state the process started in, and the exit
    code is the one of that routine, not a code of the program; an
    exception thrown before the command is called is written on the error
    stream after [error:] and the exit code is 1; an exception thrown by the
    command when [--out] is not set is printed on the standard output after
    [Command execution failed: ] and the exit code is 1; a command that
    returns when [--out] is not set ends the process with the exit code 0;
    and when [--out] is set and the command returns, the output is written
    to that file and the exit code is 0 if the file system accepts the
    write, and if it throws, nothing is written, the error is on the error
    stream after [error:] and the exit code is 1. *)
Theorem command_outcome (inv : Invocation) (a : jsval) :
  parseArgs host (actions inv) (argv inv) = inr a ->
  (forall message,
      configure host (options inv) (overwrite_scope a (file inv)) (env inv) a
      = inl message ->
      main host inv = (Some (ParserError message), start)
      /\ option_map (exit_code host) (fst (main host inv))
         = Some (parser_exit_status host))
  /\ (forall a' ex st1,
         configure host (options inv) (overwrite_scope a (file inv)) (env inv) a
         = inr a' ->
         prepare host (overwrite_scope a (file inv)) a' start = (Throw ex, st1) ->
         main host inv
         = (Some (ExitCode 1),
            {| this := this st1;
               trace := trace st1 ++ [EvStderr [JStr "error:"; ex]] |}))
  /\ (forall a' st1,
         configure host (options inv) (overwrite_scope a (file inv)) (env inv) a
         = inr a' ->
         prepare host (overwrite_scope a (file inv)) a' start = (Ok tt, st1) ->
         (forall ex st2,
             handler inv st1 = (Throw ex, st2) ->
             truthy (get_prop (args (this st2)) "out") = false ->
             main host inv
             = (Some (ExitCode 1),
                {| this := this st2;
                   trace := trace st2
                            ++ [EvStdout [JStr "Command execution failed: "; ex]] |}))
         /\ (forall st2,
                handler inv st1 = (Ok tt, st2) ->
                (truthy (get_prop (args (this st2)) "out") = false ->
                 main host inv = (Some (ExitCode 0), st2))
                /\ (truthy (get_prop (args (this st2)) "out") = true ->
                    (writeFileSync host (get_prop (args (this st2)) "out")
                       (output (this st2)) = None ->
                     main host inv
                     = (Some (ExitCode 0),
                        {| this := this st2;
                           trace := trace st2
                                    ++ [EvWriteFile
                                          (get_prop (args (this st2)) "out")
                                          (output (this st2))] |}))
                    /\ (forall e,
                           writeFileSync host (get_prop (args (this st2)) "out")
                             (output (this st2)) = Some e ->
                           main host inv
                           = (Some (ExitCode 1),
                              {| this := this st2;
                                 trace := trace st2
                                          ++ [EvStderr [JStr "error:"; e]] |}))))).
Proof.
  intros Ha. unfold main, run. rewrite Ha. split; [|split].
  - intros message ->. split; reflexivity.
  - intros a' ex st1 -> Hp. unfold bind. now rewrite Hp.
  - intros a' st1 Hc Hp. rewrite Hc. split.
    + intros ex st2 Hh Hout. unfold bind at 1. rewrite Hp.
      now rewrite (call_command_throw _ ex st1 st2 Hh Hout).
    + intros st2 Hh.
      assert (Hm : (prepare host (overwrite_scope a (file inv)) a' ;;;
                    call_command host (handler inv)) start
                   = if truthy (get_prop (args (this st2)) "out")
                     then write_file host (get_prop (args (this st2)) "out")
                            (output (this st2)) st2
                     else (Ok tt, st2)).
      { unfold bind at 1. rewrite Hp. apply (call_command_ok _ st1 st2 Hh). }
      rewrite Hm. split.
      * intros Hout. now rewrite Hout.
      * intros Hout. rewrite Hout. unfold write_file. split.
        -- intros Hw. now rewrite Hw.
        -- intros e Hw. now rewrite Hw.
Qed.

End Process.

(** The theorem at [key] with no network, where the exit code is 1 and the
    message is on the standard output, and at [key] with [--out key.json]
    on a machine that cannot write the file, where the exit code is 1 and
    the error of the file system is on the error stream. *)
Lemma command_outcome_witness :
  main offline (plain_key offline)
  = (Some (ExitCode 1),
     {| this := this (snd (main offline (plain_key offline)));
        trace := [ EvRequest
                     {| method := None;
                        uri := "https://api.zotero.org/keys/P9NiFoyLeZu2bZNv";
                        req_headers :=
                          [ ("User-Agent", JStr "Zotero-CLI");
                            ("Zotero-API-Version", JStr "3");
                            ("Zotero-API-Key", JStr "P9NiFoyLeZu2bZNv") ];
                        body := JUndefined; encoding := JNull; json := true;
                        resolveWithFullResponse := false |} ]
                 ++ [EvStdout [JStr "Command execution failed: "; refused]] |})
  /\ fst (main no_directory (key_to_file no_directory)) = Some (ExitCode 1)
  /\ filter is_stderr (trace (snd (main no_directory (key_to_file no_directory))))
     = [EvStderr [JStr "error:"; enoent]].
Proof.
  split.
  - refine (proj1 (proj2 (proj2 (command_outcome offline (plain_key offline) _
                                   eq_refl))
                     _ _ eq_refl eq_refl)
              refused _ eq_refl eq_refl).
  - pose proof ((proj2 ((proj2 ((proj2 ((proj2 (proj2 (command_outcome no_directory (key_to_file no_directory) _ eq_refl))) _ _ eq_refl eq_refl)) _ eq_refl)) eq_refl)) enoent eq_refl) as H.
    rewrite H. split; reflexivity.
Defined.

(** C8 as stated fails.  When the command fails and [--out] is not set, the
    exit code is 1 and the message goes to the standard output; nothing is
    written on the error stream.  And [key] with nothing configured ends
    through the error routine of the parser, whose exit code on the example
    machine, as in the library, is 2. *)
Lemma failure_message_on_stdout :
  fst (main offline (plain_key offline)) = Some (ExitCode 1)
  /\ trace (snd (main offline (plain_key offline)))
     = [ EvRequest
           {| method := None;
              uri := "https://api.zotero.org/keys/P9NiFoyLeZu2bZNv";
              req_headers :=
                [ ("User-Agent", JStr "Zotero-CLI");
                  ("Zotero-API-Version", JStr "3");
                  ("Zotero-API-Key", JStr "P9NiFoyLeZu2bZNv") ];
              body := JUndefined; encoding := JNull; json := true;
              resolveWithFullResponse := false |};
         EvStdout [JStr "Command execution failed: "; refused] ]
  /\ main offline (bare_key offline)
     = (Some (ParserError "no API key provided"), start)
  /\ option_map (exit_code offline) (fst (main offline (bare_key offline)))
     = Some 2%Z.
Proof. repeat split; reflexivity. Qed.

(** With [--out] set, the message of a failed command is added to the
    output in memory and the process exits before the file is written. *)
Lemma failure_message_never_written :
  fst (main offline (key_to_file offline)) = Some (ExitCode 1)
  /\ output (this (snd (main offline (key_to_file offline))))
     = "Command execution failed:  <Error: connect ECONNREFUSED>" +++ newline
  /\ trace (snd (main offline (key_to_file offline)))
     = [ EvRequest
           {| method := None;
              uri := "https://api.zotero.org/keys/P9NiFoyLeZu2bZNv";
              req_headers :=
                [ ("User-Agent", JStr "Zotero-CLI");
                  ("Zotero-API-Version", JStr "3");
                  ("Zotero-API-Key", JStr "P9NiFoyLeZu2bZNv") ];
              body := JUndefined; encoding := JNull; json := true;
              resolveWithFullResponse := false |} ].
Proof. repeat split; reflexivity. Qed.

(** C7, at the failing input.  [key] with [--verbose] writes the request
    line on the error stream with the API key in it, as it is. *)
Lemma api_key_logged :
  fst (main api (verbose_key api)) = Some (ExitCode 0)
  /\ nth_error (trace (snd (main api (verbose_key api)))) 0
     = Some (EvStderr [ JStr "GET";
                        JStr "https://api.zotero.org/keys/P9NiFoyLeZu2bZNv" ])
  /\ get_prop (args (this (snd (main api (verbose_key api))))) "api_key"
     = JStr "P9NiFoyLeZu2bZNv"
  /\ occurs "P9NiFoyLeZu2bZNv" "https://api.zotero.org/keys/P9NiFoyLeZu2bZNv"
     = true.
Proof. repeat split; reflexivity. Qed.

(** * Further properties of the code *)

(** ** The loop of resolution, once more *)

Lemma resolve_options_frame (host : Host) (c : jsval) (env : environment)
  (options : list Action) :
  forall a a',
    resolve_options host c env options a = inr a' ->
    (forall k, is_null (get_prop a k) = false -> get_prop a' k = get_prop a k)
    /\ get_prop a' "config" = get_prop a "config"
    /\ get_prop a' "help" = get_prop a "help".
Proof.
  induction options as [|o r IH]; intros a a'; cbn [resolve_options].
  - intros [= <-]. repeat split; reflexivity.
  - destruct (resolve_option host c env o a) as [m|a1] eqn:E; [discriminate|].
    intros Hr. destruct (IH a1 a' Hr) as (Hk & Hc & Hh).
    destruct (resolve_option_cases _ _ _ _ _ _ E)
      as [->|(d & v & -> & Hn & Hm & _)]; [now repeat split|].
    cbn [mem_string] in Hm. apply orb_false_iff in Hm. destruct Hm as [Hdh Hm].
    apply orb_false_iff in Hm. destruct Hm as [Hdc _].
    split; [|split].
    + intros k Hnk.
      assert (Hdk : (d =? k) = false) by now apply (is_null_eqb a).
      rewrite Hk; rewrite get_prop_set_prop_other; auto.
    + rewrite Hc. now apply get_prop_set_prop_other.
    + rewrite Hh. now apply get_prop_set_prop_other.
Qed.

(** X1.  The loop over the options, lines 100-165, changes no argument that
    is not [null] when it starts: whatever the configuration file and the
    environment hold, every value the command line gave, and every member
    the parser did not set to [null], is the same after the loop; [config]
    and [help] are the same in any case. *)
Theorem resolve_options_keeps_given (host : Host) (c : jsval) (env : environment)
  (options : list Action) (a a' : jsval) :
  resolve_options host c env options a = inr a' ->
  (forall k, is_null (get_prop a k) = false -> get_prop a' k = get_prop a k)
  /\ get_prop a' "config" = get_prop a "config"
  /\ get_prop a' "help" = get_prop a "help".
Proof. apply resolve_options_frame. Qed.

(** The theorem at the command [items], whose name the loop keeps while it
    takes [indent] from the environment. *)
Lemma resolve_options_keeps_given_witness :
  exists a',
    resolve_options offline both_sections indent_env global_actions items_args
    = inr a'
    /\ get_prop a' "indent" = JNum 8
    /\ get_prop a' "command" = JStr "items".
Proof.
  eexists. split; [reflexivity|]. split; [reflexivity|].
  exact (proj1 (resolve_options_keeps_given offline both_sections indent_env
                  global_actions items_args _ eq_refl) "command" eq_refl).
Defined.

Lemma resolve_option_sets (host : Host) (c : jsval) (env : environment)
  (o : Action) (a a' : jsval) :
  resolve_option host c env o a = inr a' ->
  a' = a
  \/ exists d v,
       dest o = Some d
       /\ is_null (get_prop a d) = true
       /\ coerce host o d (raw_value c env a d) = inr v
       /\ a' = set_prop a d v.
Proof.
  unfold resolve_option. destruct (dest o) as [d|]; [|intros [= <-]; now left].
  destruct (negb (truthy (JStr d))); [intros [= <-]; now left|].
  destruct (mem_string d ["help"; "config"]); [intros [= <-]; now left|].
  destruct (is_null (get_prop a d)) eqn:Hn; cbn [negb]; [|intros [= <-]; now left].
  destruct (is_undefined (raw_value c env a d)); [intros [= <-]; now left|].
  destruct (coerce host o d (raw_value c env a d)) as [m|v] eqn:Hv; [discriminate|].
  intros [= <-]. right. now exists d, v.
Qed.

Lemma coerce_integer_number (host : Host) (o : Action) (d : string) (raw v : jsval) :
  type o = arg_integer -> coerce host o d raw = inr v -> exists n, v = JNum n.
Proof.
  intros Ht. unfold coerce. rewrite Ht. cbn [argtype_eqb].
  destruct (parseInt raw) as [n|]; [|discriminate]. intros [= <-]. now exists n.
Qed.

(** X2.  An option that every descriptor of its name types as an integer,
    and that the command line leaves unset, is after the loop either still
    [null] or a number: no string of the configuration file or of the
    environment reaches the commands in its place. *)
Theorem resolved_integer_is_number (host : Host) (c : jsval) (env : environment)
  (d : string) (options : list Action) :
  (forall o, In o options -> dest o = Some d -> type o = arg_integer) ->
  forall p l a',
    is_null (get_prop (JObj p l) d) = true ->
    resolve_options host c env options (JObj p l) = inr a' ->
    is_null (get_prop a' d) = true \/ exists n, get_prop a' d = JNum n.
Proof.
  induction options as [|o r IH]; intros Ho p l a' Hn; cbn [resolve_options].
  - intros [= <-]. now left.
  - destruct (resolve_option host c env o (JObj p l)) as [m|a1] eqn:E; [discriminate|].
    intros Hr.
    assert (Hor : forall o', In o' r -> dest o' = Some d -> type o' = arg_integer)
      by (intros o' Hin; apply Ho; now right).
    destruct (resolve_option_sets _ _ _ _ _ _ E)
      as [->|(d0 & v & Hd0 & Hn0 & Hv & ->)]; [now apply (IH Hor p l)|].
    cbn [set_prop] in Hr.
    destruct (String.eqb_spec d0 d) as [->|Hne].
    + destruct (coerce_integer_number host o d _ v (Ho o (or_introl eq_refl) Hd0) Hv)
        as [n ->].
      right. exists n.
      destruct (resolve_options_frame host c env r _ a' Hr) as (Hk & _).
      rewrite Hk; cbn [get_prop]; now rewrite assoc_put_key_same.
    + apply (IH Hor p (put_key d0 v l)); [|exact Hr].
      change (JObj p (put_key d0 v l)) with (set_prop (JObj p l) d0 v).
      rewrite get_prop_set_prop_other; [exact Hn|].
      now apply String.eqb_neq.
Qed.

(** The theorem at [indent], which the environment gives as the string
    [8]. *)
Lemma resolved_integer_is_number_witness :
  is_null (get_prop items_args "indent") = true
  /\ exists a',
       resolve_options offline both_sections indent_env global_actions items_args
       = inr a'
       /\ (is_null (get_prop a' "indent") = true
           \/ exists n, get_prop a' "indent" = JNum n).
Proof.
  split; [reflexivity|]. eexists. split; [reflexivity|].
  refine (resolved_integer_is_number offline both_sections indent_env "indent"
            global_actions _ true
            [ ("command", JStr "items"); ("config", JNull); ("indent", JNull) ]
            _ eq_refl eq_refl).
  intros o Hin Hd. cbn [In global_actions] in Hin.
  repeat (destruct Hin as [<-|Hin]; [first [reflexivity | discriminate]|]).
  contradiction.
Defined.

(** ** Keys of the configuration file *)

Lemma prefix_char (x c : ascii) (r : string) :
  prefix (String x "") (String c r) = (x =? c)%char.
Proof.
  cbn -[ascii_dec]. destruct (ascii_dec x c) as [->|Hne].
  - rewrite Ascii.eqb_refl. now destruct r.
  - symmetry. now apply Ascii.eqb_neq.
Qed.

Lemma config_key_no_underscore (d : string) : occurs "_" (config_key d) = false.
Proof.
  unfold config_key. induction d as [|c r IH]; [reflexivity|].
  cbn [replace_char]. unfold occurs; fold occurs. rewrite IH, orb_false_r, prefix_char.
  destruct (Ascii.eqb_spec c "_") as [->|Hne]; [reflexivity|].
  apply Ascii.eqb_neq. congruence.
Qed.

Lemma underscore_key_differs (k d : string) :
  occurs "_" k = true -> (config_key d =? k) = false.
Proof.
  intros Hk. destruct (String.eqb_spec (config_key d) k) as [<-|]; [|reflexivity].
  now rewrite config_key_no_underscore in Hk.
Qed.

(** X3.  The configuration file is read under the names of the options
    with every underscore replaced by a hyphen, lines 110-111 and 121-122:
    a key of the file with an underscore in it, such as [user_id], that is
    not the name of the command is read for no option; the file with the key
    and the file without it give every option the same raw value. *)
Theorem underscore_keys_are_ignored (p : bool) (l : props) (env : environment)
  (a : jsval) (k d : string) (v : jsval) :
  occurs "_" k = true ->
  (ToString (get_prop a "command") =? k) = false ->
  global_config (JObj p ((k, v) :: l)) d = global_config (JObj p l) d
  /\ command_config (JObj p ((k, v) :: l)) a d = command_config (JObj p l) a d
  /\ raw_value (JObj p ((k, v) :: l)) env a d = raw_value (JObj p l) env a d.
Proof.
  intros Hk Hc.
  assert (Hg : global_config (JObj p ((k, v) :: l)) d = global_config (JObj p l) d).
  { unfold global_config. cbn [get_prop assoc].
    now rewrite (underscore_key_differs k d Hk). }
  assert (Hs : command_config (JObj p ((k, v) :: l)) a d
               = command_config (JObj p l) a d).
  { unfold command_config. cbn [get_prop assoc]. now rewrite Hc. }
  split; [exact Hg|]. split; [exact Hs|].
  unfold raw_value, lookup_config. now rewrite Hg, Hs.
Qed.

(** The theorem at a file that spells the user id [user_id]: the option
    [user_id] has no raw value. *)
Lemma underscore_keys_are_ignored_witness :
  occurs "_" "user_id" = true
  /\ raw_value (JObj false [("user_id", JNum 5)]) [] items_args "user_id"
     = JUndefined.
Proof.
  split; [reflexivity|].
  rewrite (proj2 (proj2 (underscore_keys_are_ignored false [] [] items_args
                           "user_id" "user_id" (JNum 5) eq_refl eq_refl))).
  reflexivity.
Defined.

(** ** The library of the command line and the one of the file *)

Lemma assoc_remove_key_same (k : string) (l : props) :
  assoc k (remove_key k l) = None.
Proof.
  induction l as [|[k' v] r IH]; [reflexivity|]. cbn [remove_key].
  destruct (k =? k') eqn:E; [exact IH|]. cbn [assoc]. now rewrite E.
Qed.

Lemma assoc_remove_key_other (k d : string) (l : props) :
  (d =? k) = false -> assoc k (remove_key d l) = assoc k l.
Proof.
  intros Hdk. induction l as [|[k' v] r IH]; [reflexivity|]. cbn [remove_key].
  destruct (d =? k') eqn:E.
  - apply String.eqb_eq in E. subst k'. cbn [assoc].
    rewrite String.eqb_sym, Hdk. exact IH.
  - cbn [assoc]. destruct (k =? k'); [reflexivity | exact IH].
Qed.

(** What [overwrite_scope] leaves in a configuration object when the
    command line has a user id or a group id. *)
Lemma overwrite_scope_object (a : jsval) (p : bool) (l : props) :
  truthy (get_prop a "user_id") || truthy (get_prop a "group_id") = true ->
  exists l',
    overwrite_scope a (JObj p l) = JObj p l'
    /\ assoc "user-id" l'
       = (if truthy (get_prop a "user_id") then Some (get_prop a "user_id") else None)
    /\ assoc "group-id" l'
       = (if truthy (get_prop a "group_id") then Some (get_prop a "group_id") else None)
    /\ forall k, ("user-id" =? k) = false -> ("group-id" =? k) = false ->
                 assoc k l' = assoc k l.
Proof.
  intros H. unfold overwrite_scope. rewrite H.
  cbv zeta. cbn [delete_prop set_prop get_prop].
  rewrite !(assoc_put_key_other "user-id" "group-id") by reflexivity.
  rewrite !assoc_put_key_same.
  destruct (truthy (get_prop a "user_id")) eqn:Hu;
    destruct (truthy (get_prop a "group_id")) eqn:Hg; try discriminate;
    cbn [negb delete_prop get_prop].
  - rewrite assoc_put_key_same. rewrite Hg. cbn [negb].
    eexists. split; [reflexivity|]. split; [|split].
    + rewrite assoc_put_key_other by reflexivity. apply assoc_put_key_same.
    + apply assoc_put_key_same.
    + intros k H1 H2.
      rewrite !assoc_put_key_other, !assoc_remove_key_other by assumption.
      reflexivity.
  - rewrite assoc_put_key_same. rewrite Hg. cbn [negb delete_prop].
    eexists. split; [reflexivity|]. split; [|split].
    + rewrite assoc_remove_key_other by reflexivity.
      rewrite assoc_put_key_other by reflexivity. apply assoc_put_key_same.
    + apply assoc_remove_key_same.
    + intros k H1 H2.
      rewrite !assoc_remove_key_other, !assoc_put_key_other,
        !assoc_remove_key_other by assumption.
      reflexivity.
  - rewrite assoc_remove_key_other by reflexivity.
    rewrite assoc_put_key_same. rewrite Hg. cbn [negb].
    eexists. split; [reflexivity|]. split; [|split].
    + apply assoc_remove_key_same.
    + rewrite assoc_remove_key_other by reflexivity. apply assoc_put_key_same.
    + intros k H1 H2.
      rewrite !assoc_remove_key_other, !assoc_put_key_other,
        !assoc_remove_key_other by assumption.
      reflexivity.
Qed.

(** X4.  Lines 86-96 on a configuration object.  When the command line has
    neither a user id nor a group id that is truthy (none, or the user id 0),
    the configuration is left as it is.  When it has one, the global
    [user-id] and [group-id] of the file are both replaced: each becomes the
    value of the command line when that is truthy and is absent otherwise, so
    that a library named on the command line is never combined with one of
    the file; no other global key changes. *)
Theorem explicit_scope_replaces_configured (a : jsval) (p : bool) (l : props) :
  (truthy (get_prop a "user_id") = false ->
   truthy (get_prop a "group_id") = false ->
   overwrite_scope a (JObj p l) = JObj p l)
  /\ (truthy (get_prop a "user_id") || truthy (get_prop a "group_id") = true ->
      global_config (overwrite_scope a (JObj p l)) "user_id"
      = (if truthy (get_prop a "user_id") then get_prop a "user_id" else JUndefined)
      /\ global_config (overwrite_scope a (JObj p l)) "group_id"
         = (if truthy (get_prop a "group_id") then get_prop a "group_id"
            else JUndefined)
      /\ forall d,
           ("user-id" =? config_key d) = false ->
           ("group-id" =? config_key d) = false ->
           global_config (overwrite_scope a (JObj p l)) d
           = global_config (JObj p l) d).
Proof.
  split.
  - intros Hu Hg. unfold overwrite_scope. now rewrite Hu, Hg.
  - intros H. destruct (overwrite_scope_object a p l H) as (l' & -> & Hu & Hg & Hk).
    unfold global_config. cbn [get_prop]. split; [|split].
    + change (config_key "user_id") with "user-id". rewrite Hu.
      destruct (truthy (get_prop a "user_id")); [reflexivity|].
      now rewrite andb_false_r.
    + change (config_key "group_id") with "group-id". rewrite Hg.
      destruct (truthy (get_prop a "group_id")); [reflexivity|].
      now rewrite andb_false_r.
    + intros d H1 H2. now rewrite Hk.
Qed.

(** The theorem at [--user-id 5] with a file that names the group 7: the
    group of the file is dropped, and its [indent] is kept. *)
Lemma explicit_scope_replaces_configured_witness :
  global_config
    (overwrite_scope (JObj true [("user_id", JNum 5); ("group_id", JNull)])
       (JObj false [("group-id", JNum 7); ("indent", JNum 6)])) "group_id"
  = JUndefined
  /\ global_config
       (overwrite_scope (JObj true [("user_id", JNum 5); ("group_id", JNull)])
          (JObj false [("group-id", JNum 7); ("indent", JNum 6)])) "indent"
     = JNum 6.
Proof.
  pose proof (proj2 (explicit_scope_replaces_configured
                       (JObj true [("user_id", JNum 5); ("group_id", JNull)])
                       false [("group-id", JNum 7); ("indent", JNum 6)])
                eq_refl) as (_ & Hg & Hk).
  split; [exact Hg|]. exact (Hk "indent" eq_refl eq_refl).
Defined.

(** ** The methods of the client *)

Lemma append_empty (s : string) : s +++ "" = s.
Proof. induction s as [|c r IH]; [reflexivity|]. cbn. now rewrite IH. Qed.

Lemma get_request_unscoped (z : Zotero) (path : string) :
  get_request z path unscoped = unscoped_request z path.
Proof.
  unfold get_request, unscoped_request, unscoped.
  cbn [userOrGroupPrefix params opt_json opt_resolveWithFullResponse or_default].
  change (query (JObj true [])) with "". cbn [truthy String.eqb negb].
  change ("" +++ path +++ "") with (path +++ "").
  now rewrite append_empty.
Qed.

Lemma get_request_scoped (z : Zotero) (path : string) :
  get_request z path no_options = scoped_request z path.
Proof.
  unfold get_request, scoped_request, no_options.
  cbn [userOrGroupPrefix params opt_json opt_resolveWithFullResponse or_default].
  change (query (JObj true [])) with "". cbn [truthy String.eqb negb].
  now rewrite append_empty.
Qed.

Lemma assoc_spread (k : string) (b : props) :
  assoc k b = None -> forall a, assoc k (spread a b) = assoc k a.
Proof.
  unfold spread. induction b as [|[k' v] b IH]; intros Hb a; [reflexivity|].
  cbn [assoc] in Hb. destruct (k =? k') eqn:E; [discriminate|].
  cbn [fold_left fst snd]. rewrite (IH Hb).
  apply assoc_put_key_other. now rewrite String.eqb_sym.
Qed.

Lemma assoc_json_headers (k : string) (h : props) :
  (k =? "Content-Type") = false -> assoc k (json_headers h) = assoc k h.
Proof.
  intros Hk. unfold json_headers. apply assoc_spread. cbn [assoc]. now rewrite Hk.
Qed.


Lemma default_indent_step (z : Zotero) (tr : list event) :
  default_indent {| this := z; trace := tr |}
  = (Ok tt,
     {| this := {| args := if is_null (get_prop (args z) "indent")
                           then set_prop (args z) "indent" (JNum 2) else args z;
                   output := output z; config := config z; headers := headers z |};
        trace := tr |}).
Proof.
  unfold default_indent, get_arg, set_arg, bind, get_this, set_this, ret.
  cbn [this trace]. destruct (is_null (get_prop (args z) "indent")); [reflexivity|].
  now destruct z.
Qed.

Lemma indent_not_null (p : bool) (l : props) :
  is_null (get_prop (if is_null (get_prop (JObj p l) "indent")
                     then set_prop (JObj p l) "indent" (JNum 2)
                     else JObj p l) "indent") = false.
Proof.
  destruct (is_null (get_prop (JObj p l) "indent")) eqn:E; [|exact E].
  cbn [set_prop get_prop]. now rewrite assoc_put_key_same.
Qed.

Section MoreClient.

Context (host : Host).

Lemma get_step (u : string) (options : get_options) (st : state) :
  get host u options st = answered host "GET" (get_request (this st) u options) st.
Proof.
  unfold get. unfold bind at 1. cbn [get_this].
  apply (logged_request host "GET" (get_request (this st) u options)).
Qed.

Lemma post_step (u : string) (data : jsval) (h : props) (st : state) :
  post host u data h st
  = answered host "POST"
      (write_request (this st) "POST" u
         (spread (json_headers (headers (this st))) h) data) st.
Proof.
  unfold post. unfold bind at 1. cbn [get_this].
  apply (logged_request host "POST"
           (write_request (this st) "POST" u
              (spread (json_headers (headers (this st))) h) data)).
Qed.

Lemma put_step (u : string) (data : jsval) (st : state) :
  put host u data st
  = answered host "PUT"
      (write_request (this st) "PUT" u (json_headers (headers (this st))) data) st.
Proof.
  unfold put. unfold bind at 1. cbn [get_this].
  apply (logged_request host "PUT"
           (write_request (this st) "PUT" u (json_headers (headers (this st))) data)).
Qed.

Lemma patch_step (u : string) (data version : jsval) (st : state) :
  patch host u data version st
  = answered host "PATCH"
      (write_request (this st) "PATCH" u
         (versioned_headers (headers (this st)) version) data) st.
Proof.
  unfold patch. unfold bind at 1. cbn [get_this].
  apply (logged_request host "PATCH"
           (write_request (this st) "PATCH" u
              (versioned_headers (headers (this st)) version) data)).
Qed.

Lemma delete_step (u : string) (version : jsval) (st : state) :
  delete host u version st
  = answered host "DELETE"
      (write_request (this st) "DELETE" u
         (versioned_headers (headers (this st)) version) JUndefined) st.
Proof.
  unfold delete. unfold bind at 1. cbn [get_this].
  apply (logged_request host "DELETE"
           (write_request (this st) "DELETE" u
              (versioned_headers (headers (this st)) version) JUndefined)).
Qed.

(** X6.  Line 172 and line 175 on resolved arguments.  When the user id is
    the number 0 and the remote API answers the request for the key with
    [info], [run] makes that one request before the command, outside the
    libraries and with the API key in its path, and the user id the command
    sees is [info.userID]; when the user id is anything else, no request is
    made and the user id is left as it is.  In both cases the indentation
    the command sees is not [null]. *)
Theorem user_id_zero_is_looked_up (c : jsval) (p : bool) (l : props) (st : state) :
  (forall info,
      get_prop (JObj p l) "user_id" = JNum 0 ->
      is_value info = true ->
      respond host (List.length (requests (trace st)))
        (unscoped_request (configured c (JObj p l))
           ("/keys/" +++ ToString (get_prop (JObj p l) "api_key")))
      = Resolve info ->
      exists st',
        prepare host c (JObj p l) st = (Ok tt, st')
        /\ trace st'
           = trace st
             ++ logged (configured c (JObj p l)) "GET"
                  (base +++ "/keys/" +++ ToString (get_prop (JObj p l) "api_key"))
             ++ [EvRequest
                   (unscoped_request (configured c (JObj p l))
                      ("/keys/" +++ ToString (get_prop (JObj p l) "api_key")))]
        /\ get_prop (args (this st')) "user_id" = get_prop info "userID"
        /\ is_null (get_prop (args (this st')) "indent") = false)
  /\ (get_prop (JObj p l) "user_id" <> JNum 0 ->
      exists st',
        prepare host c (JObj p l) st = (Ok tt, st')
        /\ trace st' = trace st
        /\ get_prop (args (this st')) "user_id" = get_prop (JObj p l) "user_id"
        /\ is_null (get_prop (args (this st')) "indent") = false).
Proof.
  split.
  - intros info Hu Hv Hr. unfold prepare.
    unfold bind at 1. cbn [set_this]. unfold bind at 1.
    unfold self_id. unfold bind at 1. unfold get_arg at 1.
    unfold bind at 1. cbn [get_this ret this].
    change (args (configured c (JObj p l))) with (JObj p l). rewrite Hu.
    unfold bind at 1. unfold get_arg at 1. unfold bind at 1.
    cbn [get_this ret this].
    change (args (configured c (JObj p l))) with (JObj p l).
    unfold bind at 1. rewrite get_step, get_request_unscoped. unfold answered.
    cbn [this trace]. rewrite Hr.
    rewrite (member_value info "userID" Hv). unfold bind at 1. cbn [ret].
    unfold set_arg, bind at 1. cbn [get_this set_this this trace].
    rewrite default_indent_step. eexists. split; [reflexivity|].
    cbn [trace this args]. split; [reflexivity|]. split.
    + destruct (is_null (get_prop (set_prop (args (configured c (JObj p l))) "user_id"
                                     (get_prop info "userID")) "indent")).
      * rewrite get_prop_set_prop_other by reflexivity.
        cbn [configured args set_prop get_prop]. now rewrite assoc_put_key_same.
      * cbn [configured args set_prop get_prop]. now rewrite assoc_put_key_same.
    + cbn [configured args set_prop].
      exact (indent_not_null p (put_key "user_id" (get_prop info "userID") l)).
  - intros Hu. unfold prepare.
    unfold bind at 1. cbn [set_this]. unfold bind at 1.
    assert (Hs : self_id host {| this := configured c (JObj p l); trace := trace st |}
                 = (Ok tt, {| this := configured c (JObj p l); trace := trace st |})).
    { unfold self_id, bind at 1, get_arg, bind at 1.
      cbn [get_this ret this configured args].
      destruct (get_prop (JObj p l) "user_id") as [| | | n | | | | |];
        try reflexivity.
      destruct n as [n|s]; [|reflexivity].
      destruct n; try reflexivity. congruence. }
    rewrite Hs, default_indent_step. eexists. split; [reflexivity|].
    cbn [trace this args configured]. split; [reflexivity|]. split.
    + destruct (is_null (get_prop (JObj p l) "indent")); [|reflexivity].
      now rewrite get_prop_set_prop_other.
    + exact (indent_not_null p l).
Qed.


End MoreClient.

(** The theorem at the user id 0 of the key [P9NiFoyLeZu2bZNv], whose owner
    is the user 475425. *)
Lemma user_id_zero_is_looked_up_witness :
  exists st',
    prepare api (JObj false []) owner_of_key start = (Ok tt, st')
    /\ List.length (requests (trace st')) = 1%nat
    /\ get_prop (args (this st')) "user_id" = JNum 475425
    /\ get_prop (args (this st')) "indent" = JNum 2.
Proof.
  destruct (proj1 (user_id_zero_is_looked_up api (JObj false []) true
                     [ ("api_key", JStr "P9NiFoyLeZu2bZNv"); ("user_id", JNum 0);
                       ("group_id", JNull); ("indent", JNull); ("out", JNull);
                       ("verbose", JBool false) ] start)
              key_info eq_refl eq_refl eq_refl) as (st' & Hp & Ht & Hu & _).
  exists st'. split; [exact Hp|]. split; [now rewrite Ht|]. split; [exact Hu|].
  unfold owner_of_key in Hp. cbv in Hp. now injection Hp as <-.
Defined.


(** ** What [run] has checked when the command starts *)

Section Run.

Context (host : Host).



End Run.

(** ** A page that is not served *)

Section Rejection.

Context (host : Host).

Lemma request_reject (r : http_request) (e : jsval) (st : state) :
  respond host (List.length (requests (trace st))) r = Reject e ->
  request host r st
  = (Throw e, {| this := this st; trace := trace st ++ [EvRequest r] |}).
Proof. unfold request. now intros ->. Qed.

(** The loop of [all] when the request after the pages [rest] is rejected:
    the error is thrown, after one request for each page and one more. *)
Lemma all_loop_breaks (e : jsval) (rest : list jsval) :
  forall (fuel : nat) (chunk : jsval) (data : list jsval) (st : state),
    (List.length rest < fuel)%nat ->
    is_page chunk ->
    breaks host (headers (this st)) (List.length (requests (trace st))) chunk rest e ->
    exists st',
      all_loop host fuel chunk (JArr data)
        (rel_next host (get_prop (get_prop chunk "headers") "link")) st
      = (Throw e, st')
      /\ this st' = this st
      /\ List.length (requests (trace st'))
         = (List.length (requests (trace st)) + S (List.length rest))%nat.
Proof.
  induction rest as [|p rest IH]; intros fuel chunk data st Hfuel Hpage Hb.
  - cbn [breaks] in Hb. destruct Hb as (u & Hnext & Hresp).
    unfold next_uri in Hnext.
    destruct (rel_next host _) as [|u' l]; [discriminate|].
    destruct (truthy (JStr u')) eqn:Hu; [|discriminate].
    injection Hnext as ->.
    destruct fuel as [|fuel]; [cbn in Hfuel; lia|].
    cbn [all_loop]. rewrite Hu.
    destruct Hpage as [Hbody Hh].
    rewrite (member_value chunk "headers")
      by (apply is_page_value; now split).
    unfold bind at 1. cbn [ret].
    rewrite (member_value _ "backoff") by exact Hh.
    unfold bind at 1. cbn [ret].
    unfold bind at 1. fold (backoff_of chunk). rewrite pause_step.
    unfold bind at 1. cbn [get_this this].
    unfold bind at 1.
    rewrite (request_reject _ e).
    2:{ cbn [trace]. rewrite requests_app, requests_pause, app_nil_r. exact Hresp. }
    eexists. split; [reflexivity|]. cbn [this trace]. split; [reflexivity|].
    rewrite !requests_app, requests_pause, app_nil_r, length_app. reflexivity.
  - cbn [breaks] in Hb. destruct Hb as (u & Hnext & Hresp & Hp & Hb).
    unfold next_uri in Hnext.
    destruct (rel_next host _) as [|u' l]; [discriminate|].
    destruct (truthy (JStr u')) eqn:Hu; [|discriminate].
    injection Hnext as ->.
    destruct fuel as [|fuel]; [cbn in Hfuel; lia|].
    cbn [all_loop]. rewrite Hu.
    destruct Hpage as [Hbody Hh].
    rewrite (member_value chunk "headers")
      by (apply is_page_value; now split).
    unfold bind at 1. cbn [ret].
    rewrite (member_value _ "backoff") by exact Hh.
    unfold bind at 1. cbn [ret].
    unfold bind at 1. fold (backoff_of chunk). rewrite pause_step.
    unfold bind at 1. cbn [get_this this].
    unfold bind at 1.
    rewrite (request_resolve host _ p).
    2:{ cbn [trace]. rewrite requests_app, requests_pause, app_nil_r. exact Hresp. }
    cbn [this trace].
    unfold bind at 1. cbn [member ret].
    unfold bind at 1.
    rewrite (member_value p "body") by now apply is_page_value.
    cbn [ret]. destruct (Hp) as [[recs Hrecs] _].
    rewrite Hrecs. cbn [concat]. unfold bind at 1. cbn [ret].
    unfold bind at 1. rewrite (next_link_page host p _ Hp).
    destruct (IH fuel p (data ++ recs)
                {| this := this st;
                   trace := (trace st ++ pause chunk)
                            ++ [EvRequest (page_request (headers (this st)) u)] |})
      as (st' & Hl & Ht & Hn).
    + cbn in Hfuel. lia.
    + exact Hp.
    + cbn [this trace]. rewrite !requests_app, requests_pause, app_nil_r.
      cbn. rewrite length_app. cbn. rewrite Nat.add_1_r. exact Hb.
    + exists st'. split; [exact Hl|]. split; [exact Ht|].
      rewrite Hn. cbn [this trace List.length].
      rewrite !requests_app, requests_pause, app_nil_r, length_app.
      cbn [requests filter is_request List.length]. lia.
Qed.

(** X8.  When the remote API serves the pages [pages] to [all] and rejects
    the request that follows them, the first one if there is no page, [all]
    throws the error of that request: it returns none of the records it has
    read, it has made one request for each page served and the one that was
    rejected, and it has retried nothing. *)
Theorem all_rejected_page (st : state) (u : string) (ps : jsval)
  (pages : list jsval) (e : jsval) (fuel : nat) :
  fails host st u ps pages e ->
  (List.length pages <= fuel)%nat ->
  exists st',
    all host fuel u ps st = (Throw e, st')
    /\ this st' = this st
    /\ List.length (requests (trace st'))
       = (List.length (requests (trace st)) + S (List.length pages))%nat.
Proof.
  intros Hf Hfuel. unfold all, get.
  cbn [userOrGroupPrefix params opt_json opt_resolveWithFullResponse or_default].
  unfold bind at 1. unfold bind at 1. cbn [get_this].
  unfold bind at 1. rewrite log_request_step.
  destruct pages as [|p rest]; cbn [fails] in Hf.
  - rewrite (request_reject _ e).
    2:{ cbn [trace this]. rewrite requests_app, requests_logged, app_nil_r.
        exact Hf. }
    eexists. split; [reflexivity|]. cbn [this trace]. split; [reflexivity|].
    rewrite !requests_app, requests_logged, app_nil_r, length_app. reflexivity.
  - destruct Hf as (Hresp & Hp & Hb).
    rewrite (request_resolve host _ p).
    2:{ cbn [trace this]. rewrite requests_app, requests_logged, app_nil_r.
        exact Hresp. }
    cbn [this trace].
    rewrite (member_value p "body") by now apply is_page_value.
    unfold bind at 1. cbn [ret].
    unfold bind at 1. rewrite (next_link_page host p _ Hp).
    destruct (Hp) as [[recs Hrecs] _]. rewrite Hrecs.
    match goal with
    | |- context [all_loop host fuel p (JArr recs) _ ?s] =>
        destruct (all_loop_breaks e rest fuel p recs s) as (st' & Hl & Ht & Hn)
    end.
    + cbn in Hfuel. lia.
    + exact Hp.
    + cbn [this trace]. rewrite !requests_app, requests_logged, app_nil_r.
      cbn. rewrite length_app. cbn. rewrite Nat.add_1_r. exact Hb.
    + exists st'. split; [exact Hl|]. split; [exact Ht|].
      rewrite Hn. cbn [this trace List.length].
      rewrite !requests_app, requests_logged, app_nil_r, length_app.
      cbn [requests filter is_request List.length]. lia.
Qed.

End Rejection.

Lemma two_pages_served_then_refused :
  fails two_pages_then_refused user_library "/items" (JObj true [])
    [plain1; page2] refused.
Proof.
  unfold fails. split; [reflexivity|]. split.
  { split; [now eexists | reflexivity]. }
  cbn [breaks]. eexists. split; [reflexivity|]. split; [reflexivity|]. split.
  { split; [now eexists | reflexivity]. }
  eexists. split; reflexivity.
Defined.

(** The theorem at a remote API that is out of reach after two pages: the
    error is thrown after three requests. *)
Lemma all_rejected_page_witness :
  exists st',
    all two_pages_then_refused 2 "/items" (JObj true []) user_library
    = (Throw refused, st')
    /\ List.length (requests (trace st')) = 3%nat.
Proof.
  destruct (all_rejected_page two_pages_then_refused user_library "/items"
              (JObj true []) [plain1; page2] refused 2
              two_pages_served_then_refused (le_n 2)) as (st' & Ha & _ & Hn).
  exists st'. split; [exact Ha | exact Hn].
Defined.

(** ** A command that fails while [--out] is set *)

Section MoreProcess.

Context (host : Host).

Lemma call_command_throw_out (handler : M unit) (ex : jsval) (st1 st2 : state) :
  handler st1 = (Throw ex, st2) ->
  truthy (get_prop (args (this st2)) "out") = true ->
  call_command host handler st1
  = (Exit (ExitCode 1),
     {| this :=
          {| args := args (this st2);
             output := output (this st2)
                       +++ join_values " "
                             [ JStr "Command execution failed: ";
                               print_item (get_prop (args (this st2)) "indent") ex ]
                       +++ newline;
             config := config (this st2); headers := headers (this st2) |};
        trace := trace st2 |}).
Proof.
  intros Hh Hout. unfold call_command, bind at 1, try_catch. rewrite Hh.
  unfold bind at 1, print, bind at 1. cbn [get_this]. now rewrite Hout.
Qed.

(** X9.  When the command throws and [--out] is set, the message
    [Command execution failed: ] and the error are added to the output kept
    in memory and the process exits with the code 1 at line 182, before line
    185: after the command has failed nothing is written to the file, and
    nothing is printed on either stream, so that the message is lost. *)
Theorem failed_command_output_is_lost (inv : Invocation) (a a' : jsval)
  (st1 st2 : state) (ex : jsval) :
  parseArgs host (actions inv) (argv inv) = inr a ->
  configure host (options inv) (overwrite_scope a (file inv)) (env inv) a = inr a' ->
  prepare host (overwrite_scope a (file inv)) a' start = (Ok tt, st1) ->
  handler inv st1 = (Throw ex, st2) ->
  truthy (get_prop (args (this st2)) "out") = true ->
  exists st3,
    main host inv = (Some (ExitCode 1), st3)
    /\ trace st3 = trace st2
    /\ output (this st3)
       = output (this st2)
         +++ join_values " "
               [ JStr "Command execution failed: ";
                 print_item (get_prop (args (this st2)) "indent") ex ]
         +++ newline.
Proof.
  intros Ha Hc Hp Hh Hout. unfold main, run. rewrite Ha, Hc.
  unfold bind at 1. rewrite Hp.
  rewrite (call_command_throw_out _ ex st1 st2 Hh Hout).
  eexists. split; [reflexivity|]. split; reflexivity.
Qed.

(** ** [show] *)

Lemma print_returns (items : list jsval) (st : state) :
  exists st', print items st = (Ok tt, st').
Proof.
  unfold print, bind, get_this.
  destruct (negb (truthy (get_prop (args (this st)) "out"))); now eexists.
Qed.

Lemma stringify_undefined (v space : jsval) :
  JSON_stringify v space = None
  <-> js_typeof v = "undefined" \/ js_typeof v = "function".
Proof.
  unfold JSON_stringify.
  destruct v as [| | | [n|s] | | | | | name]; cbn [serialize js_typeof];
    try (split; [discriminate | intros [H|H]; discriminate]).
  - split; [now left | reflexivity].
  - destruct (name =? "__proto__").
    + split; [discriminate | intros [H|H]; discriminate].
    + split; [now right | reflexivity].
Qed.

(** X10.  [show] throws the [TypeError] of the engine for the read of the
    member [replace] of [undefined], whatever its wording is, having printed
    nothing and changed nothing, exactly when the value it is given is
    [undefined] or a function, the values for which [JSON.stringify] returns
    [undefined] and not a string. *)
Theorem show_needs_json (v : jsval) (st : state) :
  show host v st = (Throw (TypeError host (ReadOf "replace" JUndefined)), st)
  <-> js_typeof v = "undefined" \/ js_typeof v = "function".
Proof.
  rewrite <- (stringify_undefined v (get_prop (args (this st)) "indent")).
  unfold show, bind at 1. cbn [get_this].
  destruct (JSON_stringify v (get_prop (args (this st)) "indent")) as [text|].
  - split; [|discriminate].
    destruct (RegExp_replace host _ text "<API-KEY>") as [text'|].
    + destruct (print_returns [JStr text'] st) as [st' ->]. discriminate.
    + discriminate.
  - split; reflexivity.
Qed.

(** ** The converters of the command line and the loop of resolution *)

(** X11.  For an option with a type, the loop of lines 127-142 accepts a
    string of the configuration file or of the environment exactly when the
    converter of [arg] accepts it on the command line, and with the same
    value: the two differ in the message of the error only. *)
Theorem converters_agree (o : Action) (d raw : string) (v : jsval) :
  type o <> arg_none ->
  arg_convert host (type o) (JStr raw) = inr v
  <-> coerce host o d (JStr raw) = inr v.
Proof.
  intros Ht. unfold arg_convert, coerce.
  destruct (type o); cbn [argtype_eqb andb is_string]; try congruence.
  - destruct (parseInt (JStr raw)); split; congruence.
  - destruct (negb (exists_path host (JStr raw)) || negb (is_file host (JStr raw)));
      split; congruence.
  - destruct (negb (exists_path host (JStr raw))); split; congruence.
  - cbn [ToString]. destruct (JSON_parse host raw); split; congruence.
Qed.

End MoreProcess.

(** The theorem at [key] with [--out key.json] and no network. *)
Lemma failed_command_output_is_lost_witness :
  exists st3,
    main offline (key_to_file offline) = (Some (ExitCode 1), st3)
    /\ List.length (trace st3) = 1%nat
    /\ output (this st3)
       = "Command execution failed:  <Error: connect ECONNREFUSED>" +++ newline.
Proof.
  destruct (failed_command_output_is_lost offline (key_to_file offline) _ _ _ _
              refused eq_refl eq_refl eq_refl eq_refl eq_refl)
    as (st3 & Hm & Ht & Ho).
  exists st3. split; [exact Hm|]. split; [now rewrite Ht | now rewrite Ho].
Defined.

(** The theorem at [--indent 0x10], which both read as 16. *)
Lemma converters_agree_witness :
  type (store "indent" arg_integer) <> arg_none
  /\ arg_convert offline arg_integer (JStr "0x10") = inr (JNum 16)
  /\ coerce offline (store "indent" arg_integer) "indent" (JStr "0x10")
     = inr (JNum 16).
Proof.
  assert (Ht : type (store "indent" arg_integer) <> arg_none) by discriminate.
  split; [exact Ht|]. split; [reflexivity|].
  exact (proj1 (converters_agree offline (store "indent" arg_integer) "indent"
                  "0x10" (JNum 16) Ht) eq_refl).
Defined.

(** ** The commands *)

Lemma bind_ret_tt (m : M unit) (st : state) : (m ;;; ret tt) st = m st.
Proof. unfold bind, ret. now destruct (m st) as [[[]| | |] st']. Qed.

Lemma bind_assoc {A B C} (m : M A) (f : A -> M B) (g : B -> M C) (st : state) :
  bind (bind m f) g st = bind m (fun a => bind (f a) g) st.
Proof. unfold bind. now destruct (m st) as [[a| | |] st']. Qed.

Lemma bind_ext {A B} (m : M A) (f g : A -> M B) (st : state) :
  (forall a st', f a st' = g a st') -> bind m f st = bind m g st.
Proof. intros H. unfold bind. destruct (m st) as [[a| | |] st']; auto. Qed.

(** The loop [for (const x of l) body], from any start. *)
Lemma for_each_from (body : jsval -> M unit) (l : list jsval) :
  forall (m : M unit) (st : state),
    fold_left (fun m x => m ;;; body x) l m st
    = (m ;;; fold_left (fun m x => m ;;; body x) l (ret tt)) st.
Proof.
  induction l as [|x l IH]; intros m st; cbn [fold_left].
  - now rewrite bind_ret_tt.
  - rewrite IH, bind_assoc. apply bind_ext. intros _ st'.
    now rewrite (IH (ret tt ;;; body x)), bind_assoc.
Qed.

Lemma for_each_cons (body : jsval -> M unit) (x : jsval) (l : list jsval)
  (st : state) :
  fold_left (fun m x => m ;;; body x) (x :: l) (ret tt) st
  = (body x ;;; fold_left (fun m x => m ;;; body x) l (ret tt)) st.
Proof. cbn [fold_left]. now rewrite for_each_from. Qed.

(** [x <- get_arg k ;; ...] at the head of the goal. *)
Ltac read_arg :=
  unfold bind at 1; unfold get_arg at 1, bind at 1; cbn [get_this ret this].

Section MoreCommands.
Context (host : Host).
Context (readFileSync : string -> jsval + jsval).

Lemma requests_after_get (z : Zotero) (tr : list event) (verb : string)
  (r : http_request) :
  requests (tr ++ logged z verb (uri r) ++ [EvRequest r])
  = requests tr ++ [EvRequest r].
Proof. now rewrite !requests_app, requests_logged. Qed.

Lemma length_requests_after_get (z : Zotero) (tr : list event) (verb : string)
  (r : http_request) :
  List.length (requests (tr ++ logged z verb (uri r) ++ [EvRequest r]))
  = S (List.length (requests tr)).
Proof. rewrite requests_after_get, length_app. cbn. lia. Qed.

(** X13.  [$update_item] reads the item first, then sends the contents of
    the file in one request to the same path.  With [--replace] the request
    is a PUT and carries no [If-Unmodified-Since-Version]: the version that
    was read is not used, so that the item is replaced whatever has happened
    to it since.  Without [--replace] the request is a PATCH that carries
    the version that was read.  The command ends as that request does. *)
Theorem update_item_version (st : state) (path : string)
  (data original : jsval) :
  get_prop (args (this st)) "items" = JArr [JStr path] ->
  readFileSync path = inr data ->
  is_value original = true ->
  respond host (List.length (requests (trace st)))
    (scoped_request (this st)
       ("/items/" +++ ToString (get_prop (args (this st)) "key")))
  = Resolve original ->
  assoc "If-Unmodified-Since-Version" (headers (this st)) = None ->
  exists r st',
    cmd_update_item host readFileSync st
    = (match respond host (S (List.length (requests (trace st)))) r with
       | Resolve _ => Ok tt
       | Reject e => Throw e
       end, st')
    /\ requests (trace st')
       = requests (trace st)
         ++ [ EvRequest
                (scoped_request (this st)
                   ("/items/" +++ ToString (get_prop (args (this st)) "key")));
              EvRequest r ]
    /\ uri r = base +++ prefix_of (args (this st)) +++ "/items/"
               +++ ToString (get_prop (args (this st)) "key")
    /\ body r = data
    /\ method r
       = Some (if truthy (get_prop (args (this st)) "replace")
               then "PUT" else "PATCH")
    /\ assoc "If-Unmodified-Since-Version" (req_headers r)
       = (if truthy (get_prop (args (this st)) "replace") then None
          else if is_undefined (get_prop original "version") then None
               else Some (get_prop original "version")).
Proof.
  intros Hitems Hfile Hv Hresp Hh.
  unfold cmd_update_item. unfold bind at 1. unfold get_arg at 1, bind at 1.
  cbn [get_this ret]. unfold bind at 1.
  rewrite get_step, get_request_scoped. unfold answered. rewrite Hresp.
  unfold bind at 1. unfold get_arg at 1, bind at 1. cbn [get_this ret this].
  rewrite Hitems. cbn [for_of fold_left].
  unfold bind at 1. cbn [ret]. unfold bind at 1.
  unfold get_arg at 1, bind at 1. cbn [get_this ret this].
  unfold bind at 1.
  unfold get_arg at 1, bind at 1. cbn [get_this ret this].
  unfold bind at 1. cbn [read_file]. rewrite Hfile. cbn [ret].
  rewrite (member_value original "version" Hv). unfold bind at 1. cbn [ret].
  destruct (truthy (get_prop (args (this st)) "replace")).
  - unfold bind at 1. rewrite put_step.
    match goal with |- context [answered host _ ?r0 _] => exists r0 end.
    unfold answered. cbn [this trace]. rewrite length_requests_after_get.
    eexists. split.
    { destruct (respond host (S _) _); reflexivity. }
    split.
    { cbn [trace]. now rewrite requests_after_get, requests_after_get, <- app_assoc. }
    cbn [write_request uri body method req_headers].
    repeat split. rewrite assoc_json_headers by reflexivity. exact Hh.
  - unfold bind at 1. rewrite patch_step.
    match goal with |- context [answered host _ ?r0 _] => exists r0 end.
    unfold answered. cbn [this trace]. rewrite length_requests_after_get.
    eexists. split.
    { destruct (respond host (S _) _); reflexivity. }
    split.
    { cbn [trace]. now rewrite requests_after_get, requests_after_get, <- app_assoc. }
    cbn [write_request uri body method req_headers].
    repeat split. now apply versioned_headers_precondition.
Qed.

(** The body of the loop of [$delete]. *)
Lemma cmd_delete_cons (u : jsval) (rest : list jsval) (st : state) :
  get_prop (args (this st)) "uri" = JArr (u :: rest) ->
  cmd_delete host st
  = ((response <- get host (ToString u) no_options ;;
      version <- member host response "version" ;;
      delete host (ToString u) version ;;;
      ret tt) ;;;
     fold_left
       (fun (m : M unit) (u : jsval) =>
          m ;;;
          response <- get host (ToString u) no_options ;;
          version <- member host response "version" ;;
          delete host (ToString u) version ;;;
          ret tt)
       rest (ret tt)) st.
Proof.
  intros Hu. unfold cmd_delete. unfold bind at 1. unfold get_arg at 1, bind at 1.
  cbn [get_this ret]. rewrite Hu.
  exact (for_each_cons
           (fun u => response <- get host (ToString u) no_options ;;
                     version <- member host response "version" ;;
                     delete host (ToString u) version ;;;
                     ret tt) u rest st).
Qed.

(** X18.  [$delete] reads each item before it deletes it, and stops at the
    first request that fails: when the read of the first uri is rejected,
    the error is thrown after that one request and nothing is deleted; when
    the read is answered and the DELETE is rejected, the error is thrown
    after those two requests, the DELETE having carried the version that was
    read.  In both cases no request is made for the uris that follow. *)
Theorem delete_stops_at_first_failure (st : state) (u : jsval)
  (rest : list jsval) (e : jsval) :
  get_prop (args (this st)) "uri" = JArr (u :: rest) ->
  (respond host (List.length (requests (trace st)))
     (scoped_request (this st) (ToString u)) = Reject e ->
   exists st',
     cmd_delete host st = (Throw e, st')
     /\ requests (trace st')
        = requests (trace st) ++ [EvRequest (scoped_request (this st) (ToString u))])
  /\ (forall r,
         respond host (List.length (requests (trace st)))
           (scoped_request (this st) (ToString u)) = Resolve r ->
         is_value r = true ->
         respond host (S (List.length (requests (trace st))))
           (write_request (this st) "DELETE" (ToString u)
              (versioned_headers (headers (this st)) (get_prop r "version"))
              JUndefined) = Reject e ->
         exists st',
           cmd_delete host st = (Throw e, st')
           /\ requests (trace st')
              = requests (trace st)
                ++ [ EvRequest (scoped_request (this st) (ToString u));
                     EvRequest
                       (write_request (this st) "DELETE" (ToString u)
                          (versioned_headers (headers (this st))
                             (get_prop r "version"))
                          JUndefined) ]).
Proof.
  intros Hu. split.
  - intros Hresp. rewrite (cmd_delete_cons u rest st Hu).
    unfold bind at 1. unfold bind at 1.
    rewrite get_step, get_request_scoped. unfold answered. rewrite Hresp.
    eexists. split; [reflexivity|]. cbn [trace]. apply requests_after_get.
  - intros r Hresp Hv Hdel. rewrite (cmd_delete_cons u rest st Hu).
    unfold bind at 1. unfold bind at 1.
    rewrite get_step, get_request_scoped. unfold answered. rewrite Hresp.
    rewrite (member_value r "version" Hv). unfold bind at 1. cbn [ret].
    unfold bind at 1. rewrite delete_step. unfold answered. cbn [this trace].
    rewrite length_requests_after_get, Hdel.
    eexists. split; [reflexivity|]. cbn [trace].
    now rewrite requests_after_get, requests_after_get, <- app_assoc.
Qed.

Lemma index_from_includes (v : jsval) (l : list jsval) :
  forall i, (0 <= i)%Z -> (-1 <? index_from i v l)%Z = includes l v.
Proof.
  unfold includes. induction l as [|x l IH]; intros i Hi; cbn [index_from existsb].
  - reflexivity.
  - destruct (same_value_zero v x); cbn [orb].
    + apply Z.ltb_lt. lia.
    + apply IH. lia.
Qed.

Lemma remove_first_absent (v : jsval) (l : list jsval) :
  includes l v = false -> remove_first v l = l.
Proof.
  unfold includes. induction l as [|x l IH]; cbn [remove_first existsb]; [reflexivity|].
  destruct (same_value_zero v x); cbn [orb]; [discriminate|].
  intros H. now rewrite IH.
Qed.

(** X14.  [$collection] checks its arguments before it makes any request:
    [--tags] with [--add], [--add] without item keys, and item keys without
    [--add] each end the process through the error routine of the parser,
    in the state the command started in. *)
Theorem collection_arguments_checked_first (st : state) :
  (truthy (get_prop (args (this st)) "tags") = true ->
   truthy (get_prop (args (this st)) "add") = true ->
   cmd_collection host st
   = (Exit (ParserError "--tags cannot be combined with --add"), st))
  /\ (truthy (get_prop (args (this st)) "tags") = false ->
      truthy (get_prop (args (this st)) "add") = true ->
      get_prop (args (this st)) "itemkeys" = JArr [] ->
      cmd_collection host st = (Exit (ParserError "--add requires item keys"), st))
  /\ (truthy (get_prop (args (this st)) "add") = false ->
      forall x l,
        get_prop (args (this st)) "itemkeys" = JArr (x :: l) ->
        cmd_collection host st = (Exit (ParserError "unexpected item keys"), st)).
Proof.
  split; [|split].
  - intros Ht Ha. unfold cmd_collection. read_arg. read_arg.
    rewrite Ht, Ha. reflexivity.
  - intros Ht Ha Hk. unfold cmd_collection. read_arg. read_arg.
    rewrite Ht, Ha. cbn [andb]. read_arg. rewrite Hk. unfold bind at 1.
    reflexivity.
  - intros Ha x l Hk. unfold cmd_collection. read_arg. read_arg.
    rewrite Ha, andb_false_r. read_arg. rewrite Hk.
    unfold bind at 1. cbn [ret andb negb]. unfold bind at 1.
    cbn [length_of ret List.length truthy].
    now destruct (Z.of_nat (S (List.length l))) eqn:E.
Qed.

(** X15.  Adding an item to the collection, lines 360-362: the item is
    read; when its collections already include the key of the collection
    nothing is sent, so that adding twice changes nothing; otherwise one
    PATCH is sent, with the collections of the item followed by the key as
    its body and the version that was read as its precondition. *)
Theorem add_skips_member (st : state) (itemKey item : jsval) (l : list jsval) :
  respond host (List.length (requests (trace st)))
    (scoped_request (this st) ("/items/" +++ ToString itemKey))
  = Resolve item ->
  is_value item = true ->
  is_value (get_prop item "data") = true ->
  get_prop (get_prop item "data") "collections" = JArr l ->
  (includes l (get_prop (args (this st)) "key") = true ->
   exists st',
     add_to_collection host itemKey st = (Ok tt, st')
     /\ requests (trace st')
        = requests (trace st)
          ++ [EvRequest (scoped_request (this st) ("/items/" +++ ToString itemKey))])
  /\ (includes l (get_prop (args (this st)) "key") = false ->
      exists added st',
        concat (JArr l) (get_prop (args (this st)) "key") = Some added
        /\ add_to_collection host itemKey st
           = (match respond host (S (List.length (requests (trace st))))
                      (write_request (this st) "PATCH"
                         ("/items/" +++ ToString itemKey)
                         (versioned_headers (headers (this st))
                            (get_prop item "version"))
                         (collections_body added)) with
              | Resolve _ => Ok tt
              | Reject e => Throw e
              end, st')
        /\ requests (trace st')
           = requests (trace st)
             ++ [ EvRequest
                    (scoped_request (this st) ("/items/" +++ ToString itemKey));
                  EvRequest
                    (write_request (this st) "PATCH"
                       ("/items/" +++ ToString itemKey)
                       (versioned_headers (headers (this st))
                          (get_prop item "version"))
                       (collections_body added)) ]).
Proof.
  intros Hresp Hv Hd Hc.
  assert (Hstart : forall found,
    includes l (get_prop (args (this st)) "key") = found ->
    add_to_collection host itemKey st
    = (if found then ret tt
       else
         added <- concat_of host (JArr l) (get_prop (args (this st)) "key") ;;
         version <- member host item "version" ;;
         patch host ("/items/" +++ ToString itemKey) (collections_body added)
           version ;;;
         ret tt)
        {| this := this st;
           trace := trace st
                    ++ logged (this st) "GET"
                         (uri (scoped_request (this st)
                                 ("/items/" +++ ToString itemKey)))
                    ++ [EvRequest (scoped_request (this st)
                                     ("/items/" +++ ToString itemKey))] |}).
  { intros found Hf. unfold add_to_collection. unfold bind at 1.
    rewrite get_step, get_request_scoped. unfold answered. rewrite Hresp.
    rewrite (member_value item "data" Hv). unfold bind at 1. cbn [ret].
    rewrite (member_value _ "collections" Hd). unfold bind at 1. cbn [ret].
    read_arg. rewrite Hc. unfold bind at 1. cbn [includes_of ret].
    now rewrite Hf. }
  split; intros Hf; rewrite (Hstart _ Hf).
  - eexists. split; [reflexivity|]. cbn [trace]. apply requests_after_get.
  - unfold bind at 1. cbn [concat_of concat ret].
    rewrite (member_value item "version" Hv). unfold bind at 1. cbn [ret].
    unfold bind at 1. rewrite patch_step. unfold answered. cbn [this trace].
    rewrite length_requests_after_get.
    eexists _, _. split; [reflexivity|]. split.
    { destruct (respond host (S _) _); reflexivity. }
    cbn [trace]. now rewrite requests_after_get, requests_after_get, <- app_assoc.
Qed.

(** X16.  Removing an item from the collection, lines 368-373: the item
    is read and one PATCH is sent in every case, with the version that was
    read as its precondition; its body holds the collections of the item
    without the first occurrence of the key, which is the list as it was
    when the item is not in the collection. *)
Theorem remove_always_patches (st : state) (itemKey item : jsval)
  (l : list jsval) :
  respond host (List.length (requests (trace st)))
    (scoped_request (this st) ("/items/" +++ ToString itemKey))
  = Resolve item ->
  is_value item = true ->
  is_value (get_prop item "data") = true ->
  get_prop (get_prop item "data") "collections" = JArr l ->
  (includes l (get_prop (args (this st)) "key") = false ->
   remove_first (get_prop (args (this st)) "key") l = l)
  /\ exists st',
       remove_from_collection host itemKey st
       = (match respond host (S (List.length (requests (trace st))))
                  (write_request (this st) "PATCH"
                     ("/items/" +++ ToString itemKey)
                     (versioned_headers (headers (this st))
                        (get_prop item "version"))
                     (collections_body
                        (JArr (remove_first (get_prop (args (this st)) "key") l))))
          with
          | Resolve _ => Ok tt
          | Reject e => Throw e
          end, st')
       /\ requests (trace st')
          = requests (trace st)
            ++ [ EvRequest
                   (scoped_request (this st) ("/items/" +++ ToString itemKey));
                 EvRequest
                   (write_request (this st) "PATCH"
                      ("/items/" +++ ToString itemKey)
                      (versioned_headers (headers (this st))
                         (get_prop item "version"))
                      (collections_body
                         (JArr (remove_first (get_prop (args (this st)) "key")
                                  l)))) ].
Proof.
  intros Hresp Hv Hd Hc. split; [apply remove_first_absent|].
  unfold remove_from_collection. unfold bind at 1.
  rewrite get_step, get_request_scoped. unfold answered. rewrite Hresp.
  rewrite (member_value item "data" Hv). unfold bind at 1. cbn [ret].
  rewrite (member_value _ "collections" Hd). unfold bind at 1. cbn [ret].
  unfold bind at 1. unfold get_arg at 1, bind at 1. cbn [get_this ret this].
  rewrite Hc. unfold bind at 1. cbn [indexOf ret].
  rewrite index_from_includes by lia.
  assert (Hs : forall s : state,
             (if includes l (get_prop (args (this st)) "key")
              then splice_at host (JArr l) (get_prop (args (this st)) "key")
              else ret (JArr l)) s
             = (Ok (JArr (remove_first (get_prop (args (this st)) "key") l)), s)).
  { intros s. destruct (includes l _) eqn:E; [reflexivity|].
    now rewrite (remove_first_absent _ _ E). }
  unfold bind at 1. rewrite Hs.
  rewrite (member_value item "version" Hv). unfold bind at 1. cbn [ret].
  unfold bind at 1. rewrite patch_step. unfold answered. cbn [this trace].
  rewrite length_requests_after_get.
  eexists. split.
  { destruct (respond host (S _) _); reflexivity. }
  cbn [trace]. now rewrite requests_after_get, requests_after_get, <- app_assoc.
Qed.

Lemma requests_after_log (tr : list event) (items : list jsval) :
  requests (tr ++ [EvStdout items]) = requests tr.
Proof. rewrite requests_app. cbn. apply app_nil_r. Qed.

(** X17.  [$searches --create] with a definition that cannot be read, or
    that is not JSON: the error is printed on the standard output after
    [Invalid search definition: ], and the command goes on; it posts the
    empty list [[]] to [/searches] and, when the remote API accepts it,
    prints [Saved search(s) created successfully.] and returns normally. *)
Theorem invalid_search_definition_is_posted (st : state) (p : string)
  (ex v : jsval) :
  get_prop (args (this st)) "create" = JArr [JStr p] ->
  readFileSync p = inl ex
  \/ (exists text message,
         readFileSync p = inr text
         /\ JSON_parse host (ToString text) = inl message
         /\ ex = JErr "SyntaxError" message "") ->
  truthy (get_prop (args (this st)) "out") = false ->
  respond host (List.length (requests (trace st)))
    (write_request (this st) "POST" "/searches"
       (json_headers (headers (this st))) (JStr "[]"))
  = Resolve v ->
  cmd_searches host readFileSync st
  = (Ok tt,
     {| this := this st;
        trace :=
          trace st
          ++ [EvStdout [JStr "Invalid search definition: "; ex]]
          ++ logged (this st) "POST"
               (base +++ prefix_of (args (this st)) +++ "/searches")
          ++ [ EvRequest
                 (write_request (this st) "POST" "/searches"
                    (json_headers (headers (this st))) (JStr "[]"));
               EvStdout [JStr "Saved search(s) created successfully."] ] |}).
Proof.
  intros Hc Hfile Hout Hresp. unfold cmd_searches. read_arg. rewrite Hc.
  cbn [truthy]. unfold bind at 1.
  assert (Hdef :
    try_catch
      (path <- first_of host (JArr [JStr p]) ;;
       text <- read_file host readFileSync path ;;
       match JSON_parse host (ToString text) with
       | inr v => ret v
       | inl message => throw (JErr "SyntaxError" message "")
       end)
      (fun ex =>
         emit (EvStdout [JStr "Invalid search definition: "; ex]) ;;;
         ret (JArr [])) st
    = (Ok (JArr []),
       {| this := this st;
          trace := trace st
                   ++ [EvStdout [JStr "Invalid search definition: "; ex]] |})).
  { unfold try_catch. cbn [first_of]. unfold bind at 1. cbn [ret].
    unfold bind at 1. cbn [read_file].
    destruct Hfile as [Hf|(text & message & Hf & Hp & ->)]; rewrite Hf.
    - reflexivity.
    - cbn [ret]. rewrite Hp. reflexivity. }
  rewrite Hdef. unfold bind at 1. rewrite post_step. unfold answered.
  cbn [this trace JSON_stringify]. rewrite requests_after_log.
  change (spread (json_headers (headers (this st))) [])
    with (json_headers (headers (this st))).
  change (match JSON_stringify (JArr []) JUndefined with
          | Some t => JStr t
          | None => JUndefined
          end) with (JStr "[]").
  rewrite Hresp. unfold print. unfold bind at 1. cbn [get_this this].
  rewrite Hout. cbn [negb write_request uri]. unfold emit. cbn [this trace].
  now rewrite <- !app_assoc.
Qed.

End MoreCommands.

(** ** The query string *)

Lemma append_assoc' (a b c : string) : (a +++ b) +++ c = a +++ b +++ c.
Proof. induction a as [|x a IH]; [reflexivity|]. cbn. now rewrite IH. Qed.

Lemma encode_string_app (a b : string) :
  encode_string (a +++ b) = encode_string a +++ encode_string b.
Proof.
  induction a as [|x a IH]; [reflexivity|].
  cbn [String.append encode_string]. now rewrite IH, append_assoc'.
Qed.

Lemma keys_one (p : bool) (k : string) (v : jsval) : keys (JObj p [(k, v)]) = [k].
Proof.
  unfold keys, own_keys, index_keys, is_index. cbn [map fst fold_left filter].
  now destruct (array_index k).
Qed.

Lemma keys_two (p : bool) (k k2 : string) (v v2 : jsval) :
  array_index k2 = None -> keys (JObj p [(k, v); (k2, v2)]) = [k; k2].
Proof.
  intros H2. unfold keys, own_keys, index_keys, is_index.
  cbn [map fst fold_left filter]. rewrite H2.
  now destruct (array_index k).
Qed.

(** X12.  [get] escapes the values of its parameters with [encodeURI],
    which leaves [&] and [=] as they are: a value that holds [&k2=v2] gives
    the query string, and so the request, of a second parameter [k2] with
    the value [v2], for a name [k2] that is not an array index, which
    [Object.keys] would list before the names that are not. *)
Theorem query_value_injects_parameter (host : Host) (p : bool)
  (k k2 v1 v2 u : string) (prefix full json : option bool) (st : state) :
  (k2 =? k) = false ->
  array_index k2 = None ->
  encode_string k2 = k2 ->
  query (JObj p [(k, JStr (v1 +++ "&" +++ k2 +++ "=" +++ v2))])
  = query (JObj p [(k, JStr v1); (k2, JStr v2)])
  /\ get host u
       {| userOrGroupPrefix := prefix;
          params := Some (JObj p [(k, JStr (v1 +++ "&" +++ k2 +++ "=" +++ v2))]);
          opt_resolveWithFullResponse := full; opt_json := json |} st
     = get host u
         {| userOrGroupPrefix := prefix;
            params := Some (JObj p [(k, JStr v1); (k2, JStr v2)]);
            opt_resolveWithFullResponse := full; opt_json := json |} st.
Proof.
  intros Hk Hi He.
  assert (Hq : query (JObj p [(k, JStr (v1 +++ "&" +++ k2 +++ "=" +++ v2))])
               = query (JObj p [(k, JStr v1); (k2, JStr v2)])).
  { unfold query. rewrite keys_one, (keys_two p k k2 _ _ Hi).
    cbn [map fst get_prop assoc join].
    rewrite !String.eqb_refl, Hk. cbn [map join]. unfold encodeURI. cbn [ToString].
    rewrite !encode_string_app, He. cbn [encode_string].
    change (encode_char "&") with "&". change (encode_char "=") with "=".
    cbn [String.append]. now rewrite !append_assoc'. }
  split; [exact Hq|].
  unfold get. cbn [params or_default userOrGroupPrefix opt_json
                   opt_resolveWithFullResponse].
  now rewrite Hq.
Qed.

(** The theorem at the parameter [itemType] with a value that names a
    second parameter. *)
Lemma query_value_injects_parameter_witness :
  query (JObj true [("itemType", JStr "book&format=keys")])
  = "itemType=book&format=keys"
  /\ query (JObj true [("itemType", JStr "book"); ("format", JStr "keys")])
     = "itemType=book&format=keys".
Proof.
  pose proof (proj1 (query_value_injects_parameter offline true "itemType" "format"
                       "book" "keys" "/items" None None None start
                       eq_refl eq_refl eq_refl)) as Hq.
  split; [exact Hq | reflexivity].
Defined.

(** The theorem at [update-item --key ABCD2345 --replace item.json]. *)
Lemma update_item_version_witness :
  exists r st',
    cmd_update_item library one_file
      (in_library [ ("key", JStr "ABCD2345"); ("replace", JBool true);
                    ("items", JArr [JStr "item.json"]) ])
    = (Throw conflict, st')
    /\ List.length (requests (trace st')) = 2%nat
    /\ method r = Some "PUT"
    /\ nth_error (requests (trace st')) 1 = Some (EvRequest r)
    /\ assoc "If-Unmodified-Since-Version" (req_headers r) = None.
Proof.
  destruct (update_item_version library one_file
              (in_library [ ("key", JStr "ABCD2345"); ("replace", JBool true);
                            ("items", JArr [JStr "item.json"]) ])
              "item.json" (JStr "{}") item_record
              eq_refl eq_refl eq_refl eq_refl eq_refl)
    as (r & st' & Hc & Ht & _ & _ & Hm & Hv).
  exists r, st'. split.
  { rewrite Hc. unfold library, machine. cbn [respond]. now rewrite Hm. }
  rewrite Ht. repeat split; assumption.
Defined.

(** The theorem at [collection --key COLL0001 --tags --add]. *)
Lemma collection_arguments_checked_first_witness :
  cmd_collection library
    (in_library [ ("key", JStr "COLL0001"); ("tags", JBool true);
                  ("add", JBool true); ("itemkeys", JArr []) ])
  = (Exit (ParserError "--tags cannot be combined with --add"),
     in_library [ ("key", JStr "COLL0001"); ("tags", JBool true);
                  ("add", JBool true); ("itemkeys", JArr []) ]).
Proof.
  exact (proj1 (collection_arguments_checked_first library
                  (in_library [ ("key", JStr "COLL0001"); ("tags", JBool true);
                                ("add", JBool true); ("itemkeys", JArr []) ]))
           eq_refl eq_refl).
Defined.

(** The theorem at an item that is in the collection already. *)
Lemma add_skips_member_witness :
  exists st',
    add_to_collection library (JStr "ABCD2345")
      (in_library [("key", JStr "COLL0001")])
    = (Ok tt, st')
    /\ List.length (requests (trace st')) = 1%nat.
Proof.
  destruct (proj1 (add_skips_member library (in_library [("key", JStr "COLL0001")])
                     (JStr "ABCD2345") item_record [JStr "COLL0001"]
                     eq_refl eq_refl eq_refl eq_refl) eq_refl)
    as (st' & Ha & Ht).
  exists st'. split; [exact Ha | now rewrite Ht].
Defined.

(** The theorem at an item that is not in the collection: the PATCH is
    sent, and here rejected. *)
Lemma remove_always_patches_witness :
  exists st',
    remove_from_collection library (JStr "ABCD2345")
      (in_library [("key", JStr "COLL0002")])
    = (Throw conflict, st')
    /\ List.length (requests (trace st')) = 2%nat.
Proof.
  destruct (proj2 (remove_always_patches library
                     (in_library [("key", JStr "COLL0002")])
                     (JStr "ABCD2345") item_record [JStr "COLL0001"]
                     eq_refl eq_refl eq_refl eq_refl))
    as (st' & Hr & Ht).
  exists st'. split; [exact Hr | now rewrite Ht].
Defined.

(** The theorem at [searches --create missing.json]. *)
Lemma invalid_search_definition_is_posted_witness :
  exists st',
    cmd_searches library no_files
      (in_library [("create", JArr [JStr "missing.json"])])
    = (Ok tt, st')
    /\ nth_error (trace st') 0
       = Some (EvStdout [JStr "Invalid search definition: "; no_such_file])
    /\ nth_error (trace st') 2
       = Some (EvStdout [JStr "Saved search(s) created successfully."]).
Proof.
  eexists. split.
  - exact (invalid_search_definition_is_posted library no_files
             (in_library [("create", JArr [JStr "missing.json"])])
             "missing.json" no_such_file (JStr "{}")
             eq_refl (or_introl eq_refl) eq_refl eq_refl).
  - split; reflexivity.
Defined.

(** The theorem at [delete /items/ABCD2345 /items/EFGH6789], the first
    DELETE being rejected. *)
Lemma delete_stops_at_first_failure_witness :
  exists st',
    cmd_delete library
      (in_library [("uri", JArr [JStr "/items/ABCD2345"; JStr "/items/EFGH6789"])])
    = (Throw conflict, st')
    /\ List.length (requests (trace st')) = 2%nat.
Proof.
  destruct (proj2 (delete_stops_at_first_failure library
                     (in_library [("uri", JArr [ JStr "/items/ABCD2345";
                                                 JStr "/items/EFGH6789" ])])
                     (JStr "/items/ABCD2345") [JStr "/items/EFGH6789"] conflict
                     eq_refl)
              item_record eq_refl eq_refl eq_refl)
    as (st' & Hd & Ht).
  exists st'. split; [exact Hd | now rewrite Ht].
Defined.

(** ** What [--verbose] logs of the pages *)

Section Verbose.

Context (host : Host).

Lemma stderr_logged (z : Zotero) (verb u : string) :
  filter is_stderr (logged z verb u) = logged z verb u.
Proof. unfold logged. now destruct (truthy _). Qed.

Lemma stderr_schedule (h : props) (rest : list jsval) :
  forall chunk, filter is_stderr (schedule host h chunk rest) = [].
Proof.
  induction rest as [|p rest IH]; intros chunk; cbn [schedule]; [reflexivity|].
  destruct (next_uri host chunk); [|reflexivity].
  rewrite filter_app. unfold pause.
  destruct (truthy (backoff_of chunk)); cbn [filter is_stderr app]; apply IH.
Qed.

(** X19.  When the remote API serves the pages [p :: rest] to [all], one
    request is made for each page and only the first of them is written on
    the error stream under [--verbose]: the loop of lines 213-224 makes its
    requests without the log line of [get]. *)
Theorem all_logs_first_request_only (st : state) (u : string) (ps p : jsval)
  (rest : list jsval) (fuel : nat) :
  serves host st u ps p rest ->
  (List.length rest <= fuel)%nat ->
  exists v st',
    all host fuel u ps st = (Ok v, st')
    /\ filter is_stderr (trace st')
       = filter is_stderr (trace st)
         ++ logged (this st) "GET" (uri (first_request (this st) u ps))
    /\ List.length (requests (trace st'))
       = (List.length (requests (trace st)) + S (List.length rest))%nat.
Proof.
  intros Hs Hfuel. eexists _, _. split; [exact (all_serves host st u ps p rest fuel Hs Hfuel)|].
  destruct Hs as (_ & _ & Hf). cbn [trace]. split.
  - rewrite !filter_app, stderr_logged. cbn [filter is_stderr].
    now rewrite stderr_schedule, app_nil_r.
  - rewrite !requests_app, requests_logged, requests_cons, length_app.
    cbn [app List.length]. now rewrite (requests_schedule _ _ _ _ _ Hf).
Qed.

End Verbose.

Lemma three_pages_served_verbose :
  serves three_pages verbose_library "/items" (JObj true []) page1 [page2; page3].
Proof.
  unfold serves. split; [reflexivity|]. split.
  { split; [eexists|]; reflexivity. }
  cbn [follows]. eexists. split; [reflexivity|]. split; [reflexivity|].
  split. { split; [eexists|]; reflexivity. }
  eexists. split; [reflexivity|]. split; [reflexivity|].
  split. { split; [eexists|]; reflexivity. }
  reflexivity.
Defined.

(** The theorem at three pages with [--verbose]: three requests, one
    line. *)
Lemma all_logs_first_request_only_witness :
  exists v st',
    all three_pages 2 "/items" (JObj true []) verbose_library = (Ok v, st')
    /\ filter is_stderr (trace st')
       = [EvStderr [JStr "GET"; JStr "https://api.zotero.org/users/5/items"]]
    /\ List.length (requests (trace st')) = 3%nat.
Proof.
  destruct (all_logs_first_request_only three_pages verbose_library "/items"
              (JObj true []) page1 [page2; page3] 2
              three_pages_served_verbose (le_n 2))
    as (v & st' & Ha & Hl & Hn).
  exists v, st'. split; [exact Ha|]. split; [exact Hl | exact Hn].
Defined.

(** ** An empty variable of the environment *)

(** X20.  Line 116 takes [ZOTERO_<D>] when [ZOTERO_CLI_<D>] is unset or
    empty, and lines 120-123 read the configuration file only when the
    value is [undefined]: without [--config], a variable [ZOTERO_<D>] that
    is set to the empty string is the raw value of the option, whatever the
    file holds, and an option without type, choices or action is resolved
    to the empty string, which is falsy. *)
Theorem empty_variable_hides_file (host : Host) (c : jsval) (env : environment)
  (o : Action) (p : bool) (l : props) (d : string) :
  truthy (get_prop (JObj p l) "config") = false ->
  truthy (getenv env ("ZOTERO_CLI_" +++ toUpperCase d)) = false ->
  getenv env ("ZOTERO_" +++ toUpperCase d) = JStr "" ->
  raw_value c env (JObj p l) d = JStr ""
  /\ (dest o = Some d ->
      truthy (JStr d) = true ->
      mem_string d ["help"; "config"] = false ->
      type o = arg_none -> choices o = None -> action o = None ->
      is_null (get_prop (JObj p l) d) = true ->
      exists a',
        resolve_option host c env o (JObj p l) = inr a'
        /\ get_prop a' d = JStr ""
        /\ truthy (get_prop a' d) = false).
Proof.
  intros Hc Hcli Hplain.
  assert (Hraw : raw_value c env (JObj p l) d = JStr "").
  { unfold raw_value. rewrite Hc. cbn [andb is_undefined]. unfold lookup_env, js_or.
    now rewrite Hcli, Hplain. }
  split; [exact Hraw|].
  intros Hd Ht Hm Hty Hch Hac Hn. unfold resolve_option.
  rewrite Hd, Ht, Hm, Hn, Hraw. cbn [negb is_undefined].
  unfold coerce, has_action. rewrite Hty, Hch, Hac. cbn [argtype_eqb andb].
  eexists. split; [reflexivity|]. cbn [set_prop get_prop].
  now rewrite assoc_put_key_same.
Qed.

(** The theorem at the API key: the empty [ZOTERO_API_KEY] hides the key of
    the file, and [key] ends with the error of the missing key. *)
Lemma empty_variable_hides_file_witness :
  raw_value file_with_key empty_key_env
    (JObj true [("command", JStr "key"); ("config", JNull); ("api_key", JNull)])
    "api_key"
  = JStr ""
  /\ global_config file_with_key "api_key" = JStr "P9NiFoyLeZu2bZNv"
  /\ main offline (key_from_file offline)
     = (Some (ParserError "no API key provided"), start).
Proof.
  split; [|split; reflexivity].
  exact (proj1 (empty_variable_hides_file offline file_with_key empty_key_env
                  (store "api_key" arg_none) true
                  [("command", JStr "key"); ("config", JNull); ("api_key", JNull)]
                  "api_key" eq_refl eq_refl eq_refl)).
Defined.

